(** * Student records: validation utilities and the in-memory store

    A shallow embedding of the two source files of the application:
    - the utilities module ([formatDateToFrench], [calculateAge],
      [isValidBirthDate], [isValidName], [generateStudentId],
      [sanitizeName], [areDatesEqual], [getCurrentISODate],
      [isValidStudentId]);
    - [server.js]: the seeded [students] array, [redirectWithMessage],
      the [validateStudentData] middleware, the add / update / delete
      handlers, the edit page and the error-handling middleware.

    JavaScript strings are sequences of UTF-16 code units; time values are
    integers counting milliseconds since the epoch, [None] standing for an
    invalid date (NaN).  The date arithmetic follows the abstract
    operations of ECMA-262 (Day, TimeWithinDay, DayFromYear, YearFromTime,
    MonthFromTime, DateFromTime, MakeDay, MakeDate, LocalTime, UTC). *)

From Stdlib Require Import ZArith NArith Lia String Ascii.
From stdpp Require Import base tactics option numbers list.

Local Open Scope Z_scope.

(* ===================================================================== *)
(** ** JavaScript strings and values *)
(* ===================================================================== *)

(** A string is the list of its UTF-16 code units. *)
Abbreviation jsstring := (list N).

(** Decoding of a source literal (UTF-8 bytes) into code units; a code
    point beyond the basic plane becomes a surrogate pair. *)
Fixpoint utf16_of_utf8 (bs : list N) : jsstring :=
  match bs with
  | [] => []
  | b :: r =>
      if (b <? 128)%N then b :: utf16_of_utf8 r
      else if (b <? 224)%N then
        match r with
        | b2 :: r' => ((b - 192) * 64 + (b2 - 128))%N :: utf16_of_utf8 r'
        | [] => [b]
        end
      else if (b <? 240)%N then
        match r with
        | b2 :: b3 :: r' =>
            ((b - 224) * 4096 + (b2 - 128) * 64 + (b3 - 128))%N
              :: utf16_of_utf8 r'
        | _ => b :: r
        end
      else
        match r with
        | b2 :: b3 :: b4 :: r' =>
            let cp := ((b - 240) * 262144 + (b2 - 128) * 4096
                       + (b3 - 128) * 64 + (b4 - 128) - 65536)%N in
            (55296 + cp / 1024)%N :: (56320 + cp mod 1024)%N
              :: utf16_of_utf8 r'
        | _ => b :: r
        end
  end.

Definition js (s : string) : jsstring :=
  utf16_of_utf8 (map N_of_ascii (list_ascii_of_string s)).
Global Arguments js : simpl never.

(** The values a handler or a utility can be handed: what a field of a
    parsed request body can hold.  On a value that is not a string the
    program observes [typeof], truthiness and, for a birth date, the
    conversion to a string.  Numbers are kept as integers.  An object (an
    array or a plain object of the body parser) carries what its
    conversion to a string gives: the elements joined by commas for an
    array, [None] when the conversion throws a TypeError. *)
Inductive jsval : Type :=
| VUndefined
| VNull
| VBool (b : bool)
| VNumber (n : Z)
| VString (s : jsstring)
| VObject (str : option jsstring).

(** The exceptions the program can raise. *)
Inductive exn : Type :=
| TypeError
| URIError.

Definition truthy (v : jsval) : bool :=
  match v with
  | VUndefined | VNull => false
  | VBool b => b
  | VNumber n => negb (n =? 0)
  | VString s => match s with [] => false | _ => true end
  | VObject _ => true
  end.

Definition typeof_is_string (v : jsval) : bool :=
  match v with VString _ => true | _ => false end.

(** *** Character classes *)

(** WhiteSpace and LineTerminator code units: what [trim] removes and
    what [\s] matches. *)
Definition is_whitespace (c : N) : bool :=
  ((9 <=? c) && (c <=? 13) || (c =? 32) || (c =? 160) || (c =? 5760)
   || (8192 <=? c) && (c <=? 8202) || (c =? 8232) || (c =? 8233)
   || (c =? 8239) || (c =? 8287) || (c =? 12288) || (c =? 65279))%N.

(** The five characters the source calls dangerous: less-than,
    greater-than, double quote, single quote and ampersand. *)
Definition is_dangerous (c : N) : bool :=
  ((c =? 60) || (c =? 62) || (c =? 34) || (c =? 39) || (c =? 38))%N.

(** [\d] *)
Definition is_digit (c : N) : bool := ((48 <=? c) && (c <=? 57))%N.

Definition SPACE : N := 32%N.

(** *** String methods *)

Fixpoint trimStart (s : jsstring) : jsstring :=
  match s with
  | c :: r => if is_whitespace c then trimStart r else s
  | [] => []
  end.

Definition trimEnd (s : jsstring) : jsstring := rev (trimStart (rev s)).

(** [s.trim()] *)
Definition trim (s : jsstring) : jsstring := trimEnd (trimStart s).

(** [s.replace(/\s+/g, ' ')]: scanning left to right, every maximal run of
    whitespace is one match and is replaced by a single space.  [in_run]
    tells that the scan is inside a match whose space is already out. *)
Fixpoint replace_ws_runs (in_run : bool) (s : jsstring) : jsstring :=
  match s with
  | [] => []
  | c :: r =>
      if is_whitespace c
      then (if in_run then replace_ws_runs true r
            else SPACE :: replace_ws_runs true r)
      else c :: replace_ws_runs false r
  end.

(** [s.replace(dangerousChars, '')] with the global flag. *)
Definition remove_dangerous (s : jsstring) : jsstring :=
  filter (fun c => is_dangerous c = false) s.

(** [s.substring(0, n)] *)
Definition substring0 (n : nat) (s : jsstring) : jsstring := take n s.

(** [dangerousChars.test(s)] *)
Definition has_dangerous (s : jsstring) : bool := existsb is_dangerous s.

(** *** Surrogate code units *)

Definition is_leading_surrogate (c : N) : bool :=
  ((55296 <=? c) && (c <=? 56319))%N.

Definition is_trailing_surrogate (c : N) : bool :=
  ((56320 <=? c) && (c <=? 57343))%N.

(** The scan of [Encode] (ECMA-262) over the code points of [s]: it meets
    an unpaired surrogate when a trailing surrogate comes first, or a
    leading surrogate is not followed by a trailing one.  This is when
    [encodeURIComponent(s)] throws a URIError. *)
Fixpoint has_unpaired_surrogate (s : jsstring) : bool :=
  match s with
  | [] => false
  | c :: r =>
      if is_trailing_surrogate c then true
      else if is_leading_surrogate c then
        match r with
        | d :: r' =>
            if is_trailing_surrogate d then has_unpaired_surrogate r'
            else true
        | [] => true
        end
      else has_unpaired_surrogate r
  end.

(* ===================================================================== *)
(** ** Name utilities *)
(* ===================================================================== *)

Definition isValidName (name : jsval) : bool :=
  if negb (truthy name) || negb (typeof_is_string name) then false
  else
    match name with
    | VString s =>
        let trimmedName := trim s in
        if (length trimmedName <? 2)%nat || (50 <? length trimmedName)%nat
        then false
        else if (length trimmedName =? 0)%nat then false
        else if has_dangerous trimmedName then false
        else true
    | _ => false
    end.

Definition sanitizeName (name : jsval) : jsstring :=
  if negb (truthy name) || negb (typeof_is_string name) then []
  else
    match name with
    | VString s =>
        substring0 50 (remove_dangerous (replace_ws_runs false (trim s)))
    | _ => []
    end.

(** The truthiness of [id && typeof id === 'string' && id.length > 0]. *)
Definition isValidStudentId (id : jsval) : bool :=
  truthy id && typeof_is_string id &&
  match id with VString s => (0 <? length s)%nat | _ => false end.

(* ===================================================================== *)
(** ** Numbers to strings *)
(* ===================================================================== *)

Fixpoint digits_of_uint (u : Decimal.uint) : jsstring :=
  match u with
  | Decimal.Nil => []
  | Decimal.D0 r => 48%N :: digits_of_uint r
  | Decimal.D1 r => 49%N :: digits_of_uint r
  | Decimal.D2 r => 50%N :: digits_of_uint r
  | Decimal.D3 r => 51%N :: digits_of_uint r
  | Decimal.D4 r => 52%N :: digits_of_uint r
  | Decimal.D5 r => 53%N :: digits_of_uint r
  | Decimal.D6 r => 54%N :: digits_of_uint r
  | Decimal.D7 r => 55%N :: digits_of_uint r
  | Decimal.D8 r => 56%N :: digits_of_uint r
  | Decimal.D9 r => 57%N :: digits_of_uint r
  end.

Definition MINUS : N := 45%N.

(** [n.toString()] for an integral number. *)
Definition Number_toString (n : Z) : jsstring :=
  if n <? 0 then MINUS :: digits_of_uint (N.to_uint (Z.abs_N n))
  else digits_of_uint (N.to_uint (Z.abs_N n)).

(** [ToString] of a body value, as [RegExp.prototype.test] applies it to
    its argument.  The [Date] constructor reads the same string from a
    string and from an object (whose conversion to a primitive is its
    conversion to a string). *)
Definition ToString (v : jsval) : exn + jsstring :=
  match v with
  | VUndefined => inr (js "undefined")
  | VNull => inr (js "null")
  | VBool b => inr (if b then js "true" else js "false")
  | VNumber n => inr (Number_toString n)
  | VString s => inr s
  | VObject (Some s) => inr s
  | VObject None => inl TypeError
  end.

(** One digit in radix 36: [0-9a-z]. *)
Definition radix36_digit (d : N) : N :=
  if (d <? 10)%N then (48 + d)%N else (87 + d)%N.

Fixpoint radix36_digits (fuel : nat) (n : N) (acc : jsstring) : jsstring :=
  match fuel with
  | O => acc
  | S fuel' =>
      let acc' := radix36_digit (n mod 36) :: acc in
      if (n / 36 =? 0)%N then acc' else radix36_digits fuel' (n / 36) acc'
  end.

(** [n.toString(36)] for an integral number. *)
Definition Number_toString36 (n : Z) : jsstring :=
  let m := Z.abs_N n in
  let ds := radix36_digits (S (N.to_nat (N.log2 m))) m [] in
  if n <? 0 then MINUS :: ds else ds.

(** [s.padStart(n, '0')] *)
Definition padStart0 (n : nat) (s : jsstring) : jsstring :=
  replicate (n - length s) 48%N ++ s.

(* ===================================================================== *)
(** ** Time values (ECMA-262, Date objects) *)
(* ===================================================================== *)

Definition msPerDay : Z := 86400000.

Definition Day (t : Z) : Z := t / msPerDay.
Definition TimeWithinDay (t : Z) : Z := t mod msPerDay.

Definition DaysInYear (y : Z) : Z :=
  if negb (y mod 4 =? 0) then 365
  else if negb (y mod 100 =? 0) then 366
  else if negb (y mod 400 =? 0) then 365
  else 366.

Definition DayFromYear (y : Z) : Z :=
  365 * (y - 1970) + (y - 1969) / 4 - (y - 1901) / 100 + (y - 1601) / 400.

(** The year of day number [d]: the largest [y] with [DayFromYear y <= d].
    The quotient by the mean year length is off by at most one. *)
Definition year_of_day (d : Z) : Z :=
  let g := 1970 + (d * 400) / 146097 in
  if DayFromYear (g + 1) <=? d then g + 1
  else if DayFromYear g <=? d then g
  else g - 1.

Definition YearFromTime (t : Z) : Z := year_of_day (Day t).

(** 1 in a leap year, 0 otherwise. *)
Definition InLeapYear_of_year (y : Z) : Z := DaysInYear y - 365.
Definition InLeapYear (t : Z) : Z := InLeapYear_of_year (YearFromTime t).

Definition DayWithinYear (t : Z) : Z := Day t - DayFromYear (YearFromTime t).

(** Number of days of the year that precede month [m] (0 = January). *)
Definition month_start (leap m : Z) : Z :=
  if m =? 0 then 0
  else if m =? 1 then 31
  else if m =? 2 then 59 + leap
  else if m =? 3 then 90 + leap
  else if m =? 4 then 120 + leap
  else if m =? 5 then 151 + leap
  else if m =? 6 then 181 + leap
  else if m =? 7 then 212 + leap
  else if m =? 8 then 243 + leap
  else if m =? 9 then 273 + leap
  else if m =? 10 then 304 + leap
  else 334 + leap.

Definition month_of_yearday (leap dw : Z) : Z :=
  if dw <? 31 then 0
  else if dw <? 59 + leap then 1
  else if dw <? 90 + leap then 2
  else if dw <? 120 + leap then 3
  else if dw <? 151 + leap then 4
  else if dw <? 181 + leap then 5
  else if dw <? 212 + leap then 6
  else if dw <? 243 + leap then 7
  else if dw <? 273 + leap then 8
  else if dw <? 304 + leap then 9
  else if dw <? 334 + leap then 10
  else 11.

Definition MonthFromTime (t : Z) : Z :=
  month_of_yearday (InLeapYear t) (DayWithinYear t).

Definition DateFromTime (t : Z) : Z :=
  DayWithinYear t - month_start (InLeapYear t) (MonthFromTime t) + 1.

(** [MakeDay(year, month, date)]: months outside 0..11 carry into the
    year and days outside the month carry into the following months. *)
Definition MakeDay (year month date : Z) : Z :=
  let ym := year + month / 12 in
  let mn := month mod 12 in
  DayFromYear ym + month_start (InLeapYear_of_year ym) mn + date - 1.

Definition MakeDate (day time : Z) : Z := day * msPerDay + time.

(** [TimeClip]: [None] is NaN. *)
Definition TimeClip (t : Z) : option Z :=
  if Z.abs t <=? 8640000000000000 then Some t else None.

(** *** Calendar dates

    What the specification calls a real calendar date: month [m] between
    1 and 12 and day [d] between 1 and the length of that month in the
    proleptic Gregorian year [y]. *)
Definition DaysInMonth (y m : Z) : Z :=
  if m =? 2 then 28 + InLeapYear_of_year y
  else if (m =? 4) || (m =? 6) || (m =? 9) || (m =? 11) then 30
  else 31.

Definition is_calendar_date (y m d : Z) : bool :=
  (1 <=? m) && (m <=? 12) && (1 <=? d) && (d <=? DaysInMonth y m).

(** *** Date strings *)

Definition digit_val (c : N) : Z := Z.of_N c - 48.

(** The shape [dddd-dd-dd]; the three numbers it spells. *)
Definition ymd_fields (s : jsstring) : option (Z * Z * Z) :=
  match s with
  | [y1; y2; y3; y4; h1; m1; m2; h2; d1; d2] =>
      if forallb is_digit [y1; y2; y3; y4; m1; m2; d1; d2]
         && (h1 =? MINUS)%N && (h2 =? MINUS)%N
      then Some (1000 * digit_val y1 + 100 * digit_val y2
                 + 10 * digit_val y3 + digit_val y4,
                 10 * digit_val m1 + digit_val m2,
                 10 * digit_val d1 + digit_val d2)
      else None
  | _ => None
  end.

(** [dateRegex.test(s)] for the anchored pattern of four digits, hyphen,
    two digits, hyphen, two digits. *)
Definition dateRegex_test (s : jsstring) : bool :=
  match ymd_fields s with Some _ => true | None => false end.

(** The ISO date-only branch of the engine's date parser (V8, the engine
    of Node.js): the month must lie in 1..12 and the day in 1..31; the
    day is not checked against the length of the month, [MakeDay] carries
    the excess into the next month.  The result is midnight UTC.  [None]
    means that this branch does not accept the string. *)
Definition parse_iso_date_only (s : jsstring) : option Z :=
  match ymd_fields s with
  | Some (y, m, d) =>
      if (1 <=? m) && (m <=? 12) && (1 <=? d) && (d <=? 31)
      then TimeClip (MakeDate (MakeDay y (m - 1) d) 0)
      else None
  | None => None
  end.

(** Two time zones and an ASCII lower-casing, used for concrete runs. *)
Definition tz_utc : Z -> bool -> Z := fun _ _ => 0.
Definition tz_minus5h : Z -> bool -> Z := fun _ _ => -18000000.
Definition tz_plus2h : Z -> bool -> Z := fun _ _ => 7200000.

Definition no_other_format : jsstring -> option Z := fun _ => None.

Definition ascii_lower_unit (c : N) : N :=
  if ((65 <=? c) && (c <=? 90))%N then (c + 32)%N else c.
Definition ascii_toLowerCase (s : jsstring) : jsstring :=
  map ascii_lower_unit s.

(* ===================================================================== *)
(** ** The platform: time zone, remaining date formats, case mapping *)
(* ===================================================================== *)

Section Platform.


(** [LocalTZA t isUTC]: the offset of local time in milliseconds, as in
    ECMA-262.  It comes from the time zone of the process. *)
Variable LocalTZA : Z -> bool -> Z.

(** What [Date.parse] makes of a string that the date-only branch does
    not accept: the date-time forms and the engine's legacy formats. *)
Variable otherDateFormats : jsstring -> option Z.

(** [String.prototype.toLowerCase], a table of the Unicode standard. *)
Variable toLowerCase : jsstring -> jsstring.

Definition LocalTime (t : Z) : Z := t + LocalTZA t true.
Definition UTC (t : Z) : Z := t - LocalTZA t false.

(** The time value of [new Date(s)] for a string [s]. *)
Definition Date_parse (s : jsstring) : option Z :=
  match parse_iso_date_only s with
  | Some t => Some t
  | None => otherDateFormats s
  end.

Definition getFullYear (t : Z) : Z := YearFromTime (LocalTime t).
Definition getMonth (t : Z) : Z := MonthFromTime (LocalTime t).
Definition getDate (t : Z) : Z := DateFromTime (LocalTime t).

(** [d.setFullYear(year)] on a valid date with time value [t]. *)
Definition setFullYear (t year : Z) : option Z :=
  let lt := LocalTime t in
  let newDate := MakeDay year (MonthFromTime lt) (DateFromTime lt) in
  TimeClip (UTC (MakeDate newDate (TimeWithinDay lt))).

(** *** Date utilities *)

Definition formatDateToFrench (dateString : jsstring) : jsstring :=
  match dateString with
  | [] => []
  | _ =>
      match Date_parse dateString with
      | None => []
      | Some date =>
          let day := padStart0 2 (Number_toString (getDate date)) in
          let month := padStart0 2 (Number_toString (getMonth date + 1)) in
          let year := getFullYear date in
          day ++ js "/" ++ month ++ js "/" ++ Number_toString year
      end
  end.

(** [today] and [minNow] are the instants read by the two [new Date()]
    of the function, in that order. *)
Definition isValidBirthDate (today minNow : Z) (dateString : jsstring)
  : bool :=
  match dateString with
  | [] => false
  | _ =>
      if negb (dateRegex_test dateString) then false
      else
        match Date_parse dateString with
        | None => false
        | Some date =>
            if today <? date then false
            else
              match setFullYear minNow (getFullYear today - 150) with
              | Some minDate => if date <? minDate then false else true
              | None => true
              end
        end
  end.

(** [now] is [Date.now()]; [random36] is what
    [Math.random().toString(36).substr(2)] evaluates to. *)
Definition generateStudentId (now : Z) (random36 : jsstring) : jsstring :=
  Number_toString36 now ++ random36.

Definition pad (n : nat) (z : Z) : jsstring :=
  padStart0 n (Number_toString z).

(** [new Date().toISOString()] read at instant [now]. *)
Definition getCurrentISODate (now : Z) : jsstring :=
  let y := YearFromTime now in
  (if (0 <=? y) && (y <=? 9999) then pad 4 y
   else (if y <? 0 then MINUS else 43%N) :: pad 6 (Z.abs y))
  ++ js "-" ++ pad 2 (MonthFromTime now + 1)
  ++ js "-" ++ pad 2 (DateFromTime now)
  ++ js "T" ++ pad 2 ((now / 3600000) mod 24)
  ++ js ":" ++ pad 2 ((now / 60000) mod 60)
  ++ js ":" ++ pad 2 ((now / 1000) mod 60)
  ++ js "." ++ pad 3 (now mod 1000) ++ js "Z".

(* =================================================================== *)
(** ** The store and its handlers *)
(* =================================================================== *)

(** A record of the array.  The birth date is kept as the request gave
    it; when that value was not a string (an array of the body parser
    whose conversion is a date string), it is represented here by the
    string it converts to, which is all the program reads of it. *)
Record student : Type := {
  id : jsstring;
  name : jsstring;
  birth : jsstring;
  createdAt : option jsstring;
  updatedAt : option jsstring
}.

Definition students0 : list student :=
  [ {| id := js "1"; name := js "Sonia"; birth := js "2019-05-14";
       createdAt := None; updatedAt := None |};
    {| id := js "2"; name := js "Antoine"; birth := js "2000-12-05";
       createdAt := None; updatedAt := None |};
    {| id := js "3"; name := js "Alice"; birth := js "1990-09-14";
       createdAt := None; updatedAt := None |};
    {| id := js "4"; name := js "Sophie"; birth := js "2001-10-02";
       createdAt := None; updatedAt := None |};
    {| id := js "5"; name := js "Bernard"; birth := js "1980-08-21";
       createdAt := None; updatedAt := None |} ].

(** What one request reads from the clock and the random source. *)
Record env : Type := {
  env_today : Z;
  env_minNow : Z;
  env_idNow : Z;
  env_random36 : jsstring;
  env_stampNow : Z
}.

(** What a request is answered.  [Redirect url message type] is
    [res.redirect] to the address that [redirectWithMessage] builds from
    [url], the escaped [message] and [type]; the escaping is one-to-one
    and is not spelled out.  [JsonErrors] is [res.status(..).json] with
    the validation errors.  [ErrorAnswer] is the answer of the
    error-handling middleware: status and message, sent as JSON or as the
    home page according to the headers of the request. *)
Inductive response : Type :=
| Redirect (url message type : jsstring)
| JsonErrors (status : Z) (errors : list jsstring)
| ErrorAnswer (status : Z) (message : jsstring).

(** The message is escaped first, and [encodeURIComponent(message)]
    throws when the message holds an unpaired surrogate; only then is
    the redirect sent. *)
Definition redirectWithMessage (url message type : jsstring)
  : exn + response :=
  if has_unpaired_surrogate message then inl URIError
  else inr (Redirect url message type).

(** The error-handling middleware.  Neither exception carries a [status]
    property, so [err.status || 500] is 500 and the message is the fixed
    one. *)
Definition error_handler (err : exn) : response :=
  let status := 500 in
  ErrorAnswer status
    (js "Une erreur interne est survenue. Veuillez réessayer.").

(** How a request ends when its handler ended with [r]: an exception
    goes to the error-handling middleware, through the router for a
    plain handler and through the [catch] of [asyncHandler] for an
    asynchronous one.  What the handler did before it threw stays done. *)
Definition answered (r : exn + response) : response :=
  match r with
  | inl err => error_handler err
  | inr res => res
  end.

Definition formatStudents (studentsList : list student)
  : list (student * jsstring) :=
  map (fun s => (s, formatDateToFrench (birth s))) studentsList.

(** The middleware answers itself, or hands the cleaned body on: the
    sanitized name and the birth date as received (represented as in
    [student]). *)
Inductive validated : Type :=
| Rejected (r : response)
| Next (name birth : jsstring).

(** [name] and [birth] are the two fields of [req.body].  A truthy name
    that is not a string has no [trim] method: the call throws a
    TypeError.  A truthy birth value goes to [isValidBirthDate], where
    [test] and the [Date] constructor convert it to a string.  [finish]
    is the end of the function; it reads the birth date only when there
    is no error. *)
Definition validateStudentData (e : env) (name0 birth0 : jsval)
  : exn + validated :=
  let finish (errors : list jsstring) (birth : jsstring) : validated :=
    if (0 <? length errors)%nat
    then Rejected (JsonErrors 400 errors)
    else Next (sanitizeName name0) birth in
  let errors1 : exn + list jsstring :=
    if negb (truthy name0) then inr [js "Le nom est requis"]
    else
      match name0 with
      | VString s =>
          if negb (truthy (VString (trim s)))
          then inr [js "Le nom est requis"]
          else if negb (isValidName name0)
          then inr [js "Le nom doit contenir entre 2 et 50 caractères"]
          else inr []
      | _ => inl TypeError
      end in
  match errors1 with
  | inl err => inl err
  | inr errors1 =>
      if negb (truthy birth0)
      then inr (finish
                  (errors1 ++ [js "La date de naissance est requise"]) [])
      else
        match ToString birth0 with
        | inl err => inl err
        | inr b =>
            inr (finish
                   (errors1 ++
                    if negb (isValidBirthDate (env_today e) (env_minNow e) b)
                    then [js "Veuillez entrer une date de naissance valide"]
                    else [])
                   b)
        end
  end.

(** [POST /add-student] *)
Definition add_student (e : env) (students : list student)
    (name0 birth0 : jsval) : list student * response :=
  match validateStudentData e name0 birth0 with
  | inl err => (students, error_handler err)
  | inr (Rejected r) => (students, r)
  | inr (Next nm bd) =>
      match list_find (fun s => toLowerCase (name s) = toLowerCase nm)
                      students with
      | Some _ =>
          (students,
           answered
             (redirectWithMessage (js "/")
                (js "Un étudiant avec ce nom existe déjà.") (js "error")))
      | None =>
          let newStudent :=
            {| id := generateStudentId (env_idNow e) (env_random36 e);
               name := nm;
               birth := bd;
               createdAt := Some (getCurrentISODate (env_stampNow e));
               updatedAt := None |} in
          (students ++ [newStudent],
           answered
             (redirectWithMessage (js "/users")
                (js "L'étudiant " ++ nm ++ js " a été ajouté avec succès !")
                (js "success")))
      end
  end.

(** [POST /update/:id] *)
Definition update_student (e : env) (students : list student)
    (studentId : jsstring) (name0 birth0 : jsval)
  : list student * response :=
  match validateStudentData e name0 birth0 with
  | inl err => (students, error_handler err)
  | inr (Rejected r) => (students, r)
  | inr (Next nm bd) =>
      if negb (isValidStudentId (VString studentId))
      then (students,
            answered
              (redirectWithMessage (js "/users")
                 (js "ID d'étudiant invalide.") (js "error")))
      else
        match list_find (fun s => id s = studentId) students with
        | None =>
            (students,
             answered
               (redirectWithMessage (js "/users")
                  (js "Étudiant non trouvé.") (js "error")))
        | Some (studentIndex, old) =>
            match list_find
                    (fun s => toLowerCase (name s) = toLowerCase nm
                              /\ id s <> studentId) students with
            | Some _ =>
                (students,
                 answered
                   (redirectWithMessage (js "/edit/" ++ studentId)
                      (js "Un autre étudiant avec ce nom existe déjà.")
                      (js "error")))
            | None =>
                (<[studentIndex :=
                     {| id := id old;
                        name := nm;
                        birth := bd;
                        createdAt := createdAt old;
                        updatedAt :=
                          Some (getCurrentISODate (env_stampNow e)) |}]>
                   students,
                 answered
                   (redirectWithMessage (js "/users")
                      (js "L'étudiant " ++ nm
                       ++ js " a été modifié avec succès !")
                      (js "success")))
            end
        end
  end.

(** [POST /delete/:id] *)
Definition delete_student (students : list student) (studentId : jsstring)
  : list student * response :=
  if negb (isValidStudentId (VString studentId))
  then (students,
        answered
          (redirectWithMessage (js "/users")
             (js "ID d'étudiant invalide.") (js "error")))
  else
    match list_find (fun s => id s = studentId) students with
    | None =>
        (students,
         answered
           (redirectWithMessage (js "/users")
              (js "Étudiant non trouvé.") (js "error")))
    | Some (studentIndex, old) =>
        (delete studentIndex students,
         answered
           (redirectWithMessage (js "/users")
              (js "L'étudiant " ++ name old
               ++ js " a été supprimé avec succès !")
              (js "success")))
    end.

(** *** Remaining date utilities *)

(** [now] is the instant read by [new Date()]. *)
Definition calculateAge (now : Z) (birthDate : jsstring) : Z :=
  match birthDate with
  | [] => 0
  | _ =>
      match Date_parse birthDate with
      | None => 0
      | Some birth =>
          let age := getFullYear now - getFullYear birth in
          let monthDiff := getMonth now - getMonth birth in
          if (monthDiff <? 0)
             || ((monthDiff =? 0) && (getDate now <? getDate birth))
          then age - 1
          else age
      end
  end.

(** The two time values are compared with [===]: an invalid date (NaN)
    equals nothing, not even itself. *)
Definition areDatesEqual (date1 date2 : jsstring) : bool :=
  match date1, date2 with
  | [], _ | _, [] => false
  | _, _ =>
      match Date_parse date1, Date_parse date2 with
      | Some t1, Some t2 => t1 =? t2
      | _, _ => false
      end
  end.

(** *** The edit page *)

(** What the page handler answers: a rendered view with its data and the
    [message] and [type] of the query string, or a redirect. *)
Inductive page : Type :=
| RenderEdit (title : jsstring) (shown : student) (message type : jsval)
| Answer (r : response).

(** [GET /edit/:id] *)
Definition edit_page (students : list student) (studentId : jsstring)
    (message type : jsval) : page :=
  if negb (isValidStudentId (VString studentId))
  then Answer (answered
                 (redirectWithMessage (js "/users")
                    (js "ID d'étudiant invalide.") (js "error")))
  else
    match list_find (fun s => id s = studentId) students with
    | None =>
        Answer (answered
                  (redirectWithMessage (js "/users")
                     (js "Étudiant non trouvé.") (js "error")))
    | Some (_, student) =>
        RenderEdit (js "Gestion des Étudiants - Modification") student
          message type
    end.

(** *** Requests and runs of the server *)

(** A request: what it reads from the clock and the random source, the
    identifier of its path, and the two fields of the body object that
    the body parsers made ([VUndefined] for a field that is missing). *)
Inductive request : Type :=
| ReqAdd (e : env) (name0 birth0 : jsval)
| ReqUpdate (e : env) (studentId : jsstring) (name0 birth0 : jsval)
| ReqDelete (studentId : jsstring).

Definition handle (students : list student) (r : request)
  : list student * response :=
  match r with
  | ReqAdd e name0 birth0 => add_student e students name0 birth0
  | ReqUpdate e studentId name0 birth0 =>
      update_student e students studentId name0 birth0
  | ReqDelete studentId => delete_student students studentId
  end.

(** The collections the process can hold: the seed, then one request
    after the other, whatever the clock and the random source give. *)
Inductive reachable : list student -> Prop :=
| reachable_seed : reachable students0
| reachable_request students r :
    reachable students ->
    reachable (handle students r).1.

(** The identifier drawn for an add is not the identifier of a stored
    record.  Nothing in [generateStudentId] enforces it: two adds that
    read the same millisecond and the same random digits draw the same
    identifier. *)
Definition id_is_new (students : list student) (r : request) : Prop :=
  match r with
  | ReqAdd e _ _ =>
      generateStudentId (env_idNow e) (env_random36 e)
        ∉ id <$> students
  | _ => True
  end.

(** The collections reached by runs in which every add drew a new
    identifier. *)
Inductive reachable_with_new_ids : list student -> Prop :=
| new_ids_seed : reachable_with_new_ids students0
| new_ids_request students r :
    reachable_with_new_ids students ->
    id_is_new students r ->
    reachable_with_new_ids (handle students r).1.

(** Two names are equal case-insensitively when their lower-cased forms
    are the same string, which is how both handlers compare them. *)
Definition same_name_ci (a b : jsstring) : Prop :=
  toLowerCase a = toLowerCase b.

(** On strings of ASCII characters, lower-casing only moves the letters
    A-Z to a-z: this is the part of the Unicode table that the seeded
    names need. *)
Definition lowers_ascii (f : jsstring -> jsstring) : Prop :=
  forall s, Forall (fun c => (c < 128)%N) s -> f s = ascii_toLowerCase s.

(** *** The outcomes the specification names *)

Inductive outcome : Type :=
| Success
| ValidationFailure
| DuplicateName
| NotFound
| InvalidId.

(** How a response signals its outcome: the 400 answer carries the
    validation messages, a redirect carries one of the fixed messages.
    The answer of the error-handling middleware is none of the outcomes
    the specification names. *)
Definition outcome_of (r : response) : option outcome :=
  match r with
  | ErrorAnswer _ _ => None
  | JsonErrors status _ =>
      if status =? 400 then Some ValidationFailure else None
  | Redirect _ message type =>
      if bool_decide (type = js "success") then Some Success
      else if bool_decide (message = js "Un étudiant avec ce nom existe déjà.")
              || bool_decide
                   (message = js "Un autre étudiant avec ce nom existe déjà.")
      then Some DuplicateName
      else if bool_decide (message = js "Étudiant non trouvé.")
      then Some NotFound
      else if bool_decide (message = js "ID d'étudiant invalide.")
      then Some InvalidId
      else None
  end.

(** A response that reports a refusal. *)
Definition rejected (r : response) : Prop :=
  exists o, outcome_of r = Some o /\ o <> Success.

(** *** The wording of the specification for [sanitizeName] *)

Definition no_ws_at_head (s : jsstring) : Prop :=
  match s with c :: _ => is_whitespace c = false | [] => True end.

(** [t] is [s] without its leading and trailing whitespace. *)
Definition trimmed_of (s t : jsstring) : Prop :=
  exists pre post,
    s = pre ++ t ++ post
    /\ Forall (fun c => is_whitespace c = true) pre
    /\ Forall (fun c => is_whitespace c = true) post
    /\ no_ws_at_head t /\ no_ws_at_head (rev t).

(** [u] is [t] with every maximal run of whitespace turned into one
    space and every other character kept. *)
Inductive runs_collapsed : jsstring -> jsstring -> Prop :=
| rc_nil : runs_collapsed [] []
| rc_char c t u :
    is_whitespace c = false ->
    runs_collapsed t u ->
    runs_collapsed (c :: t) (c :: u)
| rc_run run t u :
    run <> [] ->
    Forall (fun c => is_whitespace c = true) run ->
    no_ws_at_head t ->
    runs_collapsed t u ->
    runs_collapsed (run ++ t) (SPACE :: u).

(** [w] is [u] with every occurrence of the five characters removed. *)
Inductive dangerous_removed : jsstring -> jsstring -> Prop :=
| dr_nil : dangerous_removed [] []
| dr_drop c u w :
    is_dangerous c = true ->
    dangerous_removed u w ->
    dangerous_removed (c :: u) w
| dr_keep c u w :
    is_dangerous c = false ->
    dangerous_removed u w ->
    dangerous_removed (c :: u) (c :: w).

(** [r] is [w] cut after its first [n] characters. *)
Definition truncated_to (n : nat) (w r : jsstring) : Prop :=
  r `prefix_of` w /\ length r = Nat.min n (length w).

(** *** The invariant of the store *)

Definition ids_distinct (students : list student) : Prop :=
  NoDup (id <$> students).

Definition names_distinct (students : list student) : Prop :=
  NoDup ((fun s => toLowerCase (name s)) <$> students).

(** *** Inputs of the concrete runs *)

Definition env_2024 : env :=
  {| env_today := 1704067200000;
     env_minNow := 1704067200000;
     env_idNow := 1704067200000;
     env_random36 := js "k3x9q2";
     env_stampNow := 1704067200000 |}.

Definition env_2024_later : env :=
  {| env_today := 1704067260000;
     env_minNow := 1704067260000;
     env_idNow := 1704067260000;
     env_random36 := js "7hw0zd";
     env_stampNow := 1704067260000 |}.

Definition alice : student :=
  {| id := js "3"; name := js "Alice"; birth := js "1990-09-14";
     createdAt := None; updatedAt := None |}.

Local Abbreviation ws := (fun c : N => is_whitespace c = true).
Local Abbreviation not_ws := (fun c : N => is_whitespace c = false).

(* =================================================================== *)
(** ** Properties of the string utilities *)
(* =================================================================== *)

Lemma trimStart_split (s : jsstring) :
  exists pre, s = pre ++ trimStart s /\ Forall ws pre.
Proof.
  induction s as [|c r IH]; simpl.
  - exists []. split; [reflexivity | constructor].
  - destruct (is_whitespace c) eqn:Hc.
    + destruct IH as (pre & Heq & Hpre).
      exists (c :: pre). split.
      * simpl. congruence.
      * constructor; assumption.
    + exists []. split; [reflexivity | constructor].
Qed.

Lemma trimStart_head (s : jsstring) : no_ws_at_head (trimStart s).
Proof.
  induction s as [|c r IH]; simpl; [exact I|].
  destruct (is_whitespace c) eqn:Hc; [exact IH | exact Hc].
Qed.

Lemma trimStart_fixed (s : jsstring) :
  no_ws_at_head s -> trimStart s = s.
Proof. destruct s as [|c r]; simpl; [reflexivity|]. intros ->. reflexivity. Qed.

Lemma trimEnd_split (s : jsstring) :
  exists post, s = trimEnd s ++ post /\ Forall ws post.
Proof.
  unfold trimEnd.
  destruct (trimStart_split (rev s)) as (pre & Heq & Hpre).
  exists (rev pre). split.
  - rewrite <- rev_app_distr, <- Heq, rev_involutive. reflexivity.
  - apply Forall_rev. exact Hpre.
Qed.

Lemma trimEnd_last (s : jsstring) : no_ws_at_head (rev (trimEnd s)).
Proof. unfold trimEnd. rewrite rev_involutive. apply trimStart_head. Qed.

Lemma trimEnd_head (s : jsstring) :
  no_ws_at_head s -> no_ws_at_head (trimEnd s).
Proof.
  intros Hs. destruct (trimEnd_split s) as (post & Heq & Hpost).
  destruct (trimEnd s) as [|c r] eqn:Ht; [exact I|].
  rewrite Heq in Hs. exact Hs.
Qed.

Lemma trim_trimmed_of (s : jsstring) : trimmed_of s (trim s).
Proof.
  unfold trim.
  destruct (trimStart_split s) as (pre & Hs & Hpre).
  destruct (trimEnd_split (trimStart s)) as (post & Ht & Hpost).
  exists pre, post. repeat split.
  - rewrite <- Ht. exact Hs.
  - exact Hpre.
  - exact Hpost.
  - apply trimEnd_head, trimStart_head.
  - apply trimEnd_last.
Qed.

Lemma trim_fixed (s : jsstring) :
  no_ws_at_head s -> no_ws_at_head (rev s) -> trim s = s.
Proof.
  intros H1 H2. unfold trim, trimEnd.
  rewrite (trimStart_fixed s H1), (trimStart_fixed (rev s) H2).
  apply rev_involutive.
Qed.

Lemma replace_ws_runs_collapsed (t : jsstring) :
  runs_collapsed t (replace_ws_runs false t)
  /\ (forall run, run <> [] -> Forall ws run ->
       runs_collapsed (run ++ t) (SPACE :: replace_ws_runs true t)).
Proof.
  induction t as [|c r [IH1 IH2]]; simpl.
  - split; [constructor|].
    intros run Hne Hrun. apply rc_run; [assumption..|exact I|constructor].
  - destruct (is_whitespace c) eqn:Hc.
    + split.
      * apply (IH2 [c]); [discriminate|]. repeat constructor. exact Hc.
      * intros run Hne Hrun.
        replace (run ++ c :: r) with ((run ++ [c]) ++ r)
          by (rewrite <- app_assoc; reflexivity).
        apply IH2.
        -- destruct run; discriminate.
        -- apply Forall_app. split; [exact Hrun|]. repeat constructor. exact Hc.
    + split.
      * apply rc_char; assumption.
      * intros run Hne Hrun.
        apply rc_run; [assumption..|exact Hc|]. apply rc_char; assumption.
Qed.

Lemma remove_dangerous_removed (u : jsstring) :
  dangerous_removed u (remove_dangerous u).
Proof.
  unfold remove_dangerous. induction u as [|c r IH]; [constructor|].
  rewrite filter_cons. destruct (decide (is_dangerous c = false)) as [Hc|Hc].
  - apply dr_keep; assumption.
  - apply dr_drop; [|assumption]. destruct (is_dangerous c); congruence.
Qed.

Lemma substring0_truncated (n : nat) (w : jsstring) :
  truncated_to n w (substring0 n w).
Proof.
  unfold truncated_to, substring0. split.
  - apply prefix_take.
  - apply length_take.
Qed.

Lemma trimStart_skip (pre x : jsstring) :
  Forall ws pre -> trimStart (pre ++ x) = trimStart x.
Proof.
  induction 1 as [|c pre Hc _ IH]; [reflexivity|].
  simpl. rewrite Hc. exact IH.
Qed.

Lemma trimEnd_skip (x post : jsstring) :
  Forall ws post -> trimEnd (x ++ post) = trimEnd x.
Proof.
  intros Hpost. unfold trimEnd. rewrite rev_app_distr.
  rewrite trimStart_skip by (apply Forall_rev; exact Hpost). reflexivity.
Qed.

Lemma trimmed_of_trim (s t : jsstring) : trimmed_of s t -> t = trim s.
Proof.
  intros (pre & post & -> & Hpre & Hpost & Hh & Hl).
  unfold trim. rewrite trimStart_skip by exact Hpre.
  destruct t as [|c r].
  - simpl. rewrite <- (app_nil_r post) at 1.
    rewrite trimStart_skip by exact Hpost. reflexivity.
  - rewrite (trimStart_fixed ((c :: r) ++ post)) by exact Hh.
    rewrite trimEnd_skip by exact Hpost.
    unfold trimEnd. rewrite (trimStart_fixed _ Hl). symmetry.
    apply rev_involutive.
Qed.

Lemma replace_ws_runs_rest (run t : jsstring) :
  Forall ws run -> no_ws_at_head t ->
  replace_ws_runs true (run ++ t) = replace_ws_runs false t.
Proof.
  intros Hrun Ht. induction Hrun as [|c run Hc _ IH]; simpl.
  - destruct t as [|c r]; [reflexivity|]. simpl in Ht |- *. rewrite Ht.
    reflexivity.
  - rewrite Hc. exact IH.
Qed.

Lemma runs_collapsed_replace (t u : jsstring) :
  runs_collapsed t u -> u = replace_ws_runs false t.
Proof.
  induction 1 as [|c t u Hc _ IH | run t u Hne Hrun Ht _ IH].
  - reflexivity.
  - simpl. rewrite Hc, IH. reflexivity.
  - destruct Hrun as [|c run Hc Hrun]; [congruence|].
    simpl. rewrite Hc. rewrite replace_ws_runs_rest by assumption.
    rewrite IH. reflexivity.
Qed.

Lemma dangerous_removed_filter (u w : jsstring) :
  dangerous_removed u w -> w = remove_dangerous u.
Proof.
  unfold remove_dangerous.
  induction 1 as [|c u w Hc _ IH | c u w Hc _ IH].
  - reflexivity.
  - rewrite filter_cons_False by congruence. exact IH.
  - rewrite filter_cons_True by exact Hc. rewrite IH. reflexivity.
Qed.

Lemma truncated_to_take (n : nat) (w r : jsstring) :
  truncated_to n w r -> r = substring0 n w.
Proof.
  intros [[k ->] Hlen]. unfold substring0.
  rewrite length_app in Hlen.
  destruct (Nat.min_spec n (length r + length k)) as [[Hlt Hmin] | [Hge Hmin]];
    rewrite Hmin in Hlen.
  - symmetry. apply take_app_length'. symmetry. exact Hlen.
  - assert (k = []) as -> by (apply nil_length_inv; lia).
    rewrite app_nil_r. symmetry. apply take_ge. lia.
Qed.

(** C7.  For every input, [sanitizeName] answers the empty string when the
    input is not a string or is the empty string; otherwise it answers
    the input trimmed, then with every whitespace run collapsed into one
    space, then with every occurrence of the five dangerous characters
    removed, then cut after 50 characters: the answer is obtained by these
    four steps, and it is the only string they lead to. *)
Theorem sanitizeName_pipeline (v : jsval) :
  match v with
  | VString (c :: s') =>
      (exists t u w,
         trimmed_of (c :: s') t
         /\ runs_collapsed t u
         /\ dangerous_removed u w
         /\ truncated_to 50 w (sanitizeName v))
      /\ (forall t u w r,
            trimmed_of (c :: s') t ->
            runs_collapsed t u ->
            dangerous_removed u w ->
            truncated_to 50 w r ->
            r = sanitizeName v)
  | _ => sanitizeName v = []
  end.
Proof.
  destruct v as [| |b|n|s|]; try reflexivity.
  - destruct b; reflexivity.
  - unfold sanitizeName; simpl. destruct (n =? 0); reflexivity.
  - destruct s as [|c s']; [reflexivity|]. split.
    + exists (trim (c :: s')),
             (replace_ws_runs false (trim (c :: s'))),
             (remove_dangerous (replace_ws_runs false (trim (c :: s')))).
      split; [apply trim_trimmed_of|].
      split; [apply replace_ws_runs_collapsed|].
      split; [apply remove_dangerous_removed|].
      apply substring0_truncated.
    + intros t u w r Ht Hu Hw Hr.
      apply trimmed_of_trim in Ht. apply runs_collapsed_replace in Hu.
      apply dangerous_removed_filter in Hw. apply truncated_to_take in Hr.
      subst. reflexivity.
Qed.

(** *** Valid names through [sanitizeName] *)

Lemma isValidName_inv (v : jsval) :
  isValidName v = true ->
  exists s, v = VString s
    /\ (2 <= length (trim s) <= 50)%nat
    /\ has_dangerous (trim s) = false.
Proof.
  unfold isValidName. destruct v as [| |b|n|s|]; simpl; try discriminate.
  - destruct b; discriminate.
  - destruct (n =? 0); discriminate.
  - destruct s as [|c s']; simpl; [discriminate|].
    intros H. exists (c :: s'). split; [reflexivity|].
    destruct (length (trim (c :: s')) <? 2)%nat eqn:H2; [discriminate|].
    destruct (50 <? length (trim (c :: s')))%nat eqn:H50; [discriminate|].
    simpl in H.
    destruct (length (trim (c :: s')) =? 0)%nat; [discriminate|].
    destruct (has_dangerous (trim (c :: s'))); [discriminate|].
    apply Nat.ltb_ge in H2, H50. auto.
Qed.

Lemma isValidName_intro (s : jsstring) :
  (2 <= length (trim s) <= 50)%nat ->
  has_dangerous (trim s) = false ->
  isValidName (VString s) = true.
Proof.
  intros [H2 H50] Hd. unfold isValidName.
  destruct s as [|c s']; [simpl in H2; lia|]. simpl truthy. simpl negb.
  simpl orb. cbv iota.
  assert ((length (trim (c :: s')) <? 2)%nat = false) as ->
    by (apply Nat.ltb_ge; lia).
  assert ((50 <? length (trim (c :: s')))%nat = false) as ->
    by (apply Nat.ltb_ge; lia).
  assert ((length (trim (c :: s')) =? 0)%nat = false) as ->
    by (apply Nat.eqb_neq; lia).
  rewrite Hd. reflexivity.
Qed.

Lemma replace_ws_runs_length (b : bool) (t : jsstring) :
  (length (replace_ws_runs b t) <= length t)%nat.
Proof.
  revert b. induction t as [|c r IH]; intros b; simpl; [lia|].
  destruct (is_whitespace c); [destruct b|]; simpl.
  - specialize (IH true). lia.
  - specialize (IH true). lia.
  - specialize (IH false). lia.
Qed.

Lemma replace_ws_runs_safe (b : bool) (t : jsstring) :
  has_dangerous t = false -> has_dangerous (replace_ws_runs b t) = false.
Proof.
  unfold has_dangerous. revert b.
  induction t as [|c r IH]; intros b; simpl; [reflexivity|].
  intros H. apply orb_false_iff in H as [Hc Hr].
  destruct (is_whitespace c); [destruct b|]; simpl.
  - apply IH, Hr.
  - apply IH, Hr.
  - rewrite Hc. apply IH, Hr.
Qed.

Lemma remove_dangerous_safe (t : jsstring) :
  has_dangerous t = false -> remove_dangerous t = t.
Proof.
  unfold has_dangerous, remove_dangerous.
  induction t as [|c r IH]; simpl; [reflexivity|].
  intros H. apply orb_false_iff in H as [Hc Hr].
  rewrite filter_cons_True by exact Hc. rewrite IH by exact Hr. reflexivity.
Qed.

Lemma replace_ws_runs_snoc (b : bool) (r : jsstring) (x : N) :
  is_whitespace x = false ->
  exists m, replace_ws_runs b (r ++ [x]) = m ++ [x].
Proof.
  intros Hx. revert b.
  induction r as [|c r IH]; intros b; simpl.
  - rewrite Hx. exists []. reflexivity.
  - destruct (is_whitespace c); [destruct b|].
    + apply IH.
    + destruct (IH true) as [m ->]. exists (SPACE :: m). reflexivity.
    + destruct (IH false) as [m ->]. exists (c :: m). reflexivity.
Qed.

Lemma replace_ws_runs_not_ws (b : bool) (t : jsstring) :
  filter not_ws (replace_ws_runs b t) = filter not_ws t.
Proof.
  revert b. induction t as [|c r IH]; intros b; simpl; [reflexivity|].
  destruct (is_whitespace c) eqn:Hc; [destruct b|].
  - rewrite (filter_cons_False _ c) by congruence. apply IH.
  - rewrite (filter_cons_False _ SPACE) by (vm_compute; congruence).
    rewrite (filter_cons_False _ c) by congruence. apply IH.
  - rewrite !(filter_cons_True _ c) by exact Hc. rewrite IH. reflexivity.
Qed.

Lemma filter_not_ws_all_ws (l : jsstring) :
  Forall ws l -> filter not_ws l = [].
Proof.
  induction 1 as [|c l Hc _ IH]; [reflexivity|].
  rewrite filter_cons_False by congruence. exact IH.
Qed.

Lemma trim_not_ws (s : jsstring) :
  filter not_ws (trim s) = filter not_ws s.
Proof.
  destruct (trim_trimmed_of s) as (pre & post & Hs & Hpre & Hpost & _).
  rewrite Hs at 2. rewrite !filter_app.
  rewrite (filter_not_ws_all_ws pre Hpre), (filter_not_ws_all_ws post Hpost).
  rewrite app_nil_r. reflexivity.
Qed.

(** A string of two characters or more whose first and last characters
    are not whitespace has the form [c :: r ++ [x]]. *)
Lemma two_ends (t : jsstring) :
  (2 <= length t)%nat -> no_ws_at_head t -> no_ws_at_head (rev t) ->
  exists c r x, t = c :: r ++ [x]
                /\ is_whitespace c = false /\ is_whitespace x = false.
Proof.
  intros Hlen Hh Hl. destruct t as [|c r]; [simpl in Hlen; lia|].
  destruct (rev r) as [|x r'] eqn:Hr.
  - apply (f_equal (@rev N)) in Hr. rewrite rev_involutive in Hr.
    subst r. simpl in Hlen. lia.
  - apply (f_equal (@rev N)) in Hr. rewrite rev_involutive in Hr.
    simpl in Hr. subst r. exists c, (rev r'), x. split; [reflexivity|].
    split; [exact Hh|].
    simpl in Hl. rewrite rev_app_distr in Hl. simpl in Hl. exact Hl.
Qed.

Lemma sanitizeName_of_valid (s : jsstring) :
  isValidName (VString s) = true ->
  sanitizeName (VString s) = replace_ws_runs false (trim s)
  /\ filter not_ws (sanitizeName (VString s)) = filter not_ws s
  /\ (2 <= length (sanitizeName (VString s)) <= 50)%nat
  /\ isValidName (VString (sanitizeName (VString s))) = true.
Proof.
  intros Hv. destruct (isValidName_inv _ Hv) as (s0 & [= <-] & Hlen & Hd).
  destruct (trim_trimmed_of s) as (_ & _ & _ & _ & _ & Hh & Hl).
  destruct (two_ends (trim s) (proj1 Hlen) Hh Hl)
    as (c & r & x & Ht & Hc & Hx).
  assert (Hsan : sanitizeName (VString s) = replace_ws_runs false (trim s)).
  { unfold sanitizeName. destruct s as [|c0 s']; [simpl in Hlen; lia|].
    simpl truthy. simpl negb. simpl orb. cbv iota.
    rewrite remove_dangerous_safe by (apply replace_ws_runs_safe, Hd).
    unfold substring0. apply take_ge.
    pose proof (replace_ws_runs_length false (trim (c0 :: s'))). lia. }
  split; [exact Hsan|].
  rewrite Hsan.
  split; [rewrite replace_ws_runs_not_ws; apply trim_not_ws|].
  destruct (replace_ws_runs_snoc false r x Hx) as [m Hm].
  assert (Hshape : replace_ws_runs false (trim s) = c :: m ++ [x]).
  { rewrite Ht. simpl. rewrite Hc. f_equal.
    destruct (replace_ws_runs_snoc false r x Hx) as [m' Hm'].
    rewrite Hm in Hm'. rewrite Hm. reflexivity. }
  assert (Hbounds : (2 <= length (replace_ws_runs false (trim s)) <= 50)%nat).
  { split.
    - rewrite Hshape. simpl. rewrite length_app. simpl. lia.
    - pose proof (replace_ws_runs_length false (trim s)). lia. }
  split; [exact Hbounds|].
  apply isValidName_intro.
  - rewrite trim_fixed; [exact Hbounds| |].
    + rewrite Hshape. exact Hc.
    + rewrite Hshape. simpl. rewrite rev_app_distr. simpl. exact Hx.
  - rewrite trim_fixed.
    + apply replace_ws_runs_safe, Hd.
    + rewrite Hshape. exact Hc.
    + rewrite Hshape. simpl. rewrite rev_app_distr. simpl. exact Hx.
Qed.

(* =================================================================== *)
(** ** Properties of the date arithmetic *)
(* =================================================================== *)

Lemma DayFromYear_succ (y : Z) :
  DayFromYear (y + 1) = DayFromYear y + DaysInYear y.
Proof.
  clear LocalTZA otherDateFormats toLowerCase.
  unfold DayFromYear, DaysInYear.
  destruct (Z.eqb_spec (y mod 4) 0), (Z.eqb_spec (y mod 100) 0),
    (Z.eqb_spec (y mod 400) 0); simpl negb; cbv iota;
    Z.div_mod_to_equations; lia.
Qed.

Lemma DayFromYear_estimate (y : Z) :
  146097 * (y - 1970) - 1000 <= 400 * DayFromYear y
  <= 146097 * (y - 1970) + 1000.
Proof.
  clear LocalTZA otherDateFormats toLowerCase.
  unfold DayFromYear. Z.div_mod_to_equations. lia. Qed.

Lemma DayFromYear_lt (a b : Z) : a < b -> DayFromYear a < DayFromYear b.
Proof.
  clear LocalTZA otherDateFormats toLowerCase.
  intros H. unfold DayFromYear. Z.div_mod_to_equations. lia. Qed.

Lemma year_of_day_spec (d : Z) :
  DayFromYear (year_of_day d) <= d < DayFromYear (year_of_day d + 1).
Proof.
  clear LocalTZA otherDateFormats toLowerCase.
  unfold year_of_day.
  set (g := 1970 + d * 400 / 146097).
  assert (Hg : 146097 * (g - 1970) <= 400 * d < 146097 * (g - 1970 + 1)).
  { subst g. Z.div_mod_to_equations. lia. }
  pose proof (DayFromYear_estimate (g - 1)).
  pose proof (DayFromYear_estimate (g + 2)).
  destruct (Z.leb_spec (DayFromYear (g + 1)) d).
  - replace (g + 1 + 1) with (g + 2) by lia. lia.
  - destruct (Z.leb_spec (DayFromYear g) d).
    + lia.
    + replace (g - 1 + 1) with g by lia. lia.
Qed.

Lemma year_of_day_unique (d y : Z) :
  DayFromYear y <= d < DayFromYear (y + 1) -> year_of_day d = y.
Proof.
  intros Hy. pose proof (year_of_day_spec d) as Hs.
  destruct (Z.lt_trichotomy (year_of_day d) y) as [Hlt | [Heq | Hgt]].
  - assert (DayFromYear (year_of_day d + 1) <= DayFromYear y).
    { destruct (Z.eq_dec (year_of_day d + 1) y) as [->|]; [lia|].
      apply Z.lt_le_incl, DayFromYear_lt. lia. }
    lia.
  - exact Heq.
  - assert (DayFromYear (y + 1) <= DayFromYear (year_of_day d)).
    { destruct (Z.eq_dec (y + 1) (year_of_day d)) as [->|]; [lia|].
      apply Z.lt_le_incl, DayFromYear_lt. lia. }
    lia.
Qed.

Lemma InLeapYear_of_year_cases (y : Z) :
  InLeapYear_of_year y = 0 \/ InLeapYear_of_year y = 1.
Proof.
  unfold InLeapYear_of_year, DaysInYear.
  destruct (y mod 4 =? 0), (y mod 100 =? 0), (y mod 400 =? 0); simpl; lia.
Qed.

Lemma month_cases (m : Z) :
  1 <= m <= 12 ->
  m = 1 \/ m = 2 \/ m = 3 \/ m = 4 \/ m = 5 \/ m = 6 \/ m = 7 \/ m = 8
  \/ m = 9 \/ m = 10 \/ m = 11 \/ m = 12.
Proof. lia. Qed.

Lemma is_calendar_date_inv (y m d : Z) :
  is_calendar_date y m d = true ->
  1 <= m <= 12 /\ 1 <= d <= DaysInMonth y m.
Proof.
  clear LocalTZA otherDateFormats toLowerCase.
  unfold is_calendar_date. rewrite !andb_true_iff, !Z.leb_le. tauto.
Qed.

Lemma yearday_calendar (l m d : Z) :
  l = 0 \/ l = 1 ->
  1 <= m <= 12 ->
  1 <= d <= (if m =? 2 then 28 + l
             else if (m =? 4) || (m =? 6) || (m =? 9) || (m =? 11) then 30
             else 31) ->
  0 <= month_start l (m - 1) + d - 1 < 365 + l
  /\ month_of_yearday l (month_start l (m - 1) + d - 1) = m - 1.
Proof.
  intros Hl Hm Hd.
  destruct Hl as [-> | ->];
    destruct (month_cases m Hm)
      as [-> | [-> | [-> | [-> | [-> | [-> | [-> | [-> | [-> | [-> | [-> | ->]]]]]]]]]]];
    simpl in Hd;
    match goal with
    | |- context [month_start ?l ?k] =>
        let v := eval vm_compute in (month_start l k) in
        change (month_start l k) with v
    end;
    (split; [lia|]);
    unfold month_of_yearday;
    repeat match goal with
      | |- context [?a <? ?b] => destruct (Z.ltb_spec a b); try lia
      end.
Qed.

(** Day number of a calendar date, and back. *)
Lemma MakeDay_calendar (y m d : Z) :
  is_calendar_date y m d = true ->
  let dn := MakeDay y (m - 1) d in
  year_of_day dn = y
  /\ month_of_yearday (InLeapYear_of_year y) (dn - DayFromYear y) = m - 1
  /\ dn - DayFromYear y
     - month_start (InLeapYear_of_year y) (m - 1) + 1 = d.
Proof.
  clear LocalTZA otherDateFormats toLowerCase.
  intros Hcal. apply is_calendar_date_inv in Hcal as [Hm Hd].
  unfold MakeDay.
  replace ((m - 1) / 12) with 0 by (Z.div_mod_to_equations; lia).
  replace ((m - 1) mod 12) with (m - 1) by (Z.div_mod_to_equations; lia).
  rewrite Z.add_0_r. cbv zeta.
  pose proof (DayFromYear_succ y) as Hsucc.
  assert (Hdays : DaysInYear y = 365 + InLeapYear_of_year y)
    by (unfold InLeapYear_of_year; lia).
  destruct (yearday_calendar (InLeapYear_of_year y) m d
              (InLeapYear_of_year_cases y) Hm Hd) as [Hrange Hmonth].
  split; [apply year_of_day_unique; lia|].
  split; [|lia].
  rewrite <- Hmonth at 2. f_equal. lia.
Qed.

Lemma fields_of_day (t y m d : Z) :
  is_calendar_date y m d = true ->
  Day t = MakeDay y (m - 1) d ->
  YearFromTime t = y /\ MonthFromTime t = m - 1 /\ DateFromTime t = d.
Proof.
  intros Hcal Hday.
  destruct (MakeDay_calendar y m d Hcal) as (Hy & Hm & Hd).
  unfold DateFromTime, MonthFromTime, InLeapYear, DayWithinYear, YearFromTime.
  rewrite Hday, Hy, Hm. auto.
Qed.

Lemma is_digit_val (c : N) :
  is_digit c = true -> 0 <= digit_val c <= 9 /\ c = Z.to_N (48 + digit_val c).
Proof.
  unfold is_digit, digit_val. rewrite andb_true_iff, !N.leb_le. lia.
Qed.

Lemma ymd_fields_inv (s : jsstring) (y m d : Z) :
  ymd_fields s = Some (y, m, d) ->
  exists a1 a2 a3 a4 b1 b2 c1 c2 : Z,
    s = [Z.to_N (48 + a1); Z.to_N (48 + a2); Z.to_N (48 + a3);
         Z.to_N (48 + a4); MINUS; Z.to_N (48 + b1); Z.to_N (48 + b2); MINUS;
         Z.to_N (48 + c1); Z.to_N (48 + c2)]
    /\ y = 1000 * a1 + 100 * a2 + 10 * a3 + a4
    /\ m = 10 * b1 + b2 /\ d = 10 * c1 + c2
    /\ Forall (fun a => 0 <= a <= 9) [a1; a2; a3; a4; b1; b2; c1; c2].
Proof.
  unfold ymd_fields.
  destruct s as [|y1 [|y2 [|y3 [|y4 [|h1 [|m1 [|m2 [|h2 [|d1 [|d2 [|? ?]]]]]]]]]]];
    try discriminate.
  destruct (forallb _ _ && _ && _) eqn:Hok; [|discriminate].
  intros [= <- <- <-].
  apply andb_true_iff in Hok as [Hok H2]. apply andb_true_iff in Hok as [Hok H1].
  apply N.eqb_eq in H1, H2. subst h1 h2.
  simpl in Hok. rewrite !andb_true_iff in Hok.
  destruct Hok as (Hy1 & Hy2 & Hy3 & Hy4 & Hm1 & Hm2 & Hd1 & Hd2 & _).
  apply is_digit_val in Hy1 as [? Ey1], Hy2 as [? Ey2], Hy3 as [? Ey3],
    Hy4 as [? Ey4], Hm1 as [? Em1], Hm2 as [? Em2], Hd1 as [? Ed1],
    Hd2 as [? Ed2].
  exists (digit_val y1), (digit_val y2), (digit_val y3), (digit_val y4),
    (digit_val m1), (digit_val m2), (digit_val d1), (digit_val d2).
  split; [congruence|]. repeat split; try reflexivity.
  repeat constructor; lia.
Qed.

Lemma two_digits (n : Z) :
  0 <= n <= 99 ->
  padStart0 2 (Number_toString n)
  = [Z.to_N (48 + n / 10); Z.to_N (48 + n mod 10)].
Proof.
  intros Hn.
  assert (Hall : Forall (fun n => padStart0 2 (Number_toString n)
                          = [Z.to_N (48 + n / 10); Z.to_N (48 + n mod 10)])
                   (seqZ 0 100)).
  { apply (bool_decide_unpack _). vm_compute. exact I. }
  rewrite Forall_forall in Hall. apply Hall, elem_of_seqZ. lia.
Qed.

Lemma four_digits (n : Z) :
  1000 <= n <= 9999 ->
  Number_toString n
  = [Z.to_N (48 + n / 1000); Z.to_N (48 + (n / 100) mod 10);
     Z.to_N (48 + (n / 10) mod 10); Z.to_N (48 + n mod 10)].
Proof.
  intros Hn.
  assert (Hall : Forall (fun n => Number_toString n
                          = [Z.to_N (48 + n / 1000);
                             Z.to_N (48 + (n / 100) mod 10);
                             Z.to_N (48 + (n / 10) mod 10);
                             Z.to_N (48 + n mod 10)])
                   (seqZ 1000 9000)).
  { apply (bool_decide_unpack _). vm_compute. exact I. }
  rewrite Forall_forall in Hall. apply Hall, elem_of_seqZ. lia.
Qed.

Lemma MakeDay_range (y m d : Z) :
  0 <= y <= 9999 -> 1 <= m <= 12 -> 1 <= d <= 31 ->
  -800000 <= MakeDay y (m - 1) d <= 3000000.
Proof.
  clear LocalTZA otherDateFormats toLowerCase.
  intros Hy Hm Hd. unfold MakeDay.
  replace ((m - 1) / 12) with 0 by (Z.div_mod_to_equations; lia).
  replace ((m - 1) mod 12) with (m - 1) by (Z.div_mod_to_equations; lia).
  rewrite Z.add_0_r.
  pose proof (DayFromYear_estimate y).
  assert (0 <= month_start (InLeapYear_of_year y) (m - 1) <= 335).
  { destruct (InLeapYear_of_year_cases y) as [-> | ->];
      destruct (month_cases m Hm)
        as [-> | [-> | [-> | [-> | [-> | [-> | [-> | [-> | [-> | [-> | [-> | ->]]]]]]]]]]];
      vm_compute; split; discriminate. }
  lia.
Qed.

Lemma parse_iso_date_only_fields (s : jsstring) (y m d : Z) :
  ymd_fields s = Some (y, m, d) ->
  1 <= m <= 12 -> 1 <= d <= 31 ->
  parse_iso_date_only s = Some (MakeDay y (m - 1) d * msPerDay).
Proof.
  clear LocalTZA otherDateFormats toLowerCase.
  intros Hf Hm Hd. unfold parse_iso_date_only. rewrite Hf.
  assert (Hy : 0 <= y <= 9999).
  { destruct (ymd_fields_inv s y m d Hf)
      as (a1 & a2 & a3 & a4 & b1 & b2 & c1 & c2 & _ & -> & _ & _ & Hall).
    repeat match goal with
      | H : Forall _ (_ :: _) |- _ => apply Forall_cons in H as [? H]
      end.
    lia. }
  assert (((1 <=? m) && (m <=? 12) && (1 <=? d) && (d <=? 31)) = true) as ->.
  { rewrite !andb_true_iff, !Z.leb_le. lia. }
  pose proof (MakeDay_range y m d Hy Hm Hd) as Hr.
  unfold TimeClip, MakeDate. rewrite Z.add_0_r.
  assert ((Z.abs (MakeDay y (m - 1) d * msPerDay) <=? 8640000000000000) = true)
    as -> by (apply Z.leb_le; unfold msPerDay; lia).
  reflexivity.
Qed.

(** For a calendar date of a year from 1000 on, in a time zone that is
    at or ahead of UTC at that midnight, the formatted string shows the
    same digits in the order day, month, year. *)
Lemma formatDateToFrench_calendar (s : jsstring) (y m d : Z) :
  ymd_fields s = Some (y, m, d) ->
  is_calendar_date y m d = true ->
  1000 <= y ->
  0 <= LocalTZA (MakeDay y (m - 1) d * msPerDay) true < msPerDay ->
  exists y1 y2 y3 y4 m1 m2 d1 d2,
    s = [y1; y2; y3; y4; MINUS; m1; m2; MINUS; d1; d2]
    /\ formatDateToFrench s
       = [d1; d2; 47%N; m1; m2; 47%N; y1; y2; y3; y4].
Proof.
  clear toLowerCase.
  intros Hf Hcal Hy Htz.
  pose proof (is_calendar_date_inv y m d Hcal) as [Hm Hd].
  assert (Hd31 : 1 <= d <= 31).
  { unfold DaysInMonth in Hd.
    destruct (InLeapYear_of_year_cases y) as [Hl | Hl]; rewrite Hl in Hd;
      destruct (m =? 2), ((m =? 4) || (m =? 6) || (m =? 9) || (m =? 11));
      lia. }
  pose proof (parse_iso_date_only_fields s y m d Hf Hm Hd31) as Hparse.
  destruct (ymd_fields_inv s y m d Hf)
    as (a1 & a2 & a3 & a4 & b1 & b2 & c1 & c2 & Hs & Ey & Em & Ed & Hall).
  repeat match goal with
    | H : Forall _ (_ :: _) |- _ => apply Forall_cons in H as [? H]
    end.
  do 8 eexists. split; [exact Hs|].
  unfold formatDateToFrench, Date_parse. rewrite Hparse.
  rewrite Hs at 1. cbv iota beta.
  set (t := MakeDay y (m - 1) d * msPerDay) in *.
  assert (Hday : Day (LocalTime t) = MakeDay y (m - 1) d).
  { unfold Day, LocalTime. subst t. unfold msPerDay in *.
    Z.div_mod_to_equations. lia. }
  destruct (fields_of_day _ y m d Hcal Hday) as (Hyear & Hmonth & Hdate).
  unfold getDate, getMonth, getFullYear. rewrite Hyear, Hmonth, Hdate.
  replace (m - 1 + 1) with m by lia.
  rewrite (two_digits d) by lia. rewrite (two_digits m) by lia.
  rewrite (four_digits y) by lia.
  assert (d / 10 = c1 /\ d mod 10 = c2 /\ m / 10 = b1 /\ m mod 10 = b2
          /\ y / 1000 = a1 /\ (y / 100) mod 10 = a2
          /\ (y / 10) mod 10 = a3 /\ y mod 10 = a4)
    as (-> & -> & -> & -> & -> & -> & -> & ->).
  { subst y m d. repeat split; Z.div_mod_to_equations; lia. }
  reflexivity.
Qed.

(** *** What [isValidBirthDate] checks *)

Lemma isValidBirthDate_pattern (today minNow : Z) (s : jsstring) :
  dateRegex_test s = false -> isValidBirthDate today minNow s = false.
Proof.
  intros H. unfold isValidBirthDate. rewrite H. destruct s; reflexivity.
Qed.

Lemma isValidBirthDate_true_inv (today minNow : Z) (s : jsstring) :
  isValidBirthDate today minNow s = true ->
  dateRegex_test s = true
  /\ exists date,
       Date_parse s = Some date
       /\ date <= today
       /\ (forall minDate,
             setFullYear minNow (getFullYear today - 150) = Some minDate ->
             minDate <= date).
Proof.
  unfold isValidBirthDate. destruct s as [|c s']; [discriminate|].
  destruct (dateRegex_test (c :: s')); [|discriminate]. simpl negb. cbv iota.
  destruct (Date_parse (c :: s')) as [date|]; [|discriminate].
  destruct (Z.ltb_spec today date) as [Hfut | Hpast]; [discriminate|].
  intros Hres. split; [reflexivity|]. exists date.
  split; [reflexivity|]. split; [lia|].
  intros minDate Hmin. rewrite Hmin in Hres.
  destruct (Z.ltb_spec date minDate); [discriminate | lia].
Qed.

(** The day of the month is accepted up to 31 whatever the month: the
    date that is checked against the clock is the one [MakeDay] carries
    over to. *)
Lemma isValidBirthDate_day_up_to_31 (today minNow : Z) (s : jsstring)
    (y m d : Z) :
  ymd_fields s = Some (y, m, d) ->
  1 <= m <= 12 -> 1 <= d <= 31 ->
  MakeDay y (m - 1) d * msPerDay <= today ->
  (forall minDate,
     setFullYear minNow (getFullYear today - 150) = Some minDate ->
     minDate <= MakeDay y (m - 1) d * msPerDay) ->
  isValidBirthDate today minNow s = true.
Proof.
  intros Hf Hm Hd Htoday Hmin. unfold isValidBirthDate.
  assert (Hre : dateRegex_test s = true)
    by (unfold dateRegex_test; rewrite Hf; reflexivity).
  destruct s as [|c s']; [discriminate|]. rewrite Hre. simpl negb. cbv iota.
  unfold Date_parse.
  rewrite (parse_iso_date_only_fields _ y m d Hf Hm Hd).
  destruct (Z.ltb_spec today (MakeDay y (m - 1) d * msPerDay)); [lia|].
  destruct (setFullYear minNow (getFullYear today - 150)) as [minDate|];
    [|reflexivity].
  specialize (Hmin minDate eq_refl).
  destruct (Z.ltb_spec (MakeDay y (m - 1) d * msPerDay) minDate);
    [lia | reflexivity].
Qed.

(** *** What [formatDateToFrench] answers without a date *)

Lemma formatDateToFrench_empty : formatDateToFrench [] = [].
Proof. reflexivity. Qed.

Lemma formatDateToFrench_unparseable (s : jsstring) :
  Date_parse s = None -> formatDateToFrench s = [].
Proof.
  intros H. unfold formatDateToFrench. rewrite H. destruct s; reflexivity.
Qed.

(* =================================================================== *)
(** ** Properties of the handlers *)
(* =================================================================== *)

Lemma isValidBirthDate_nonempty (today minNow : Z) (b : jsstring) :
  isValidBirthDate today minNow b = true -> truthy (VString b) = true.
Proof. destruct b; [discriminate | reflexivity]. Qed.

Lemma isValidName_truthy (n : jsstring) :
  isValidName (VString n) = true ->
  truthy (VString n) = true /\ truthy (VString (trim n)) = true.
Proof.
  intros Hv. destruct (isValidName_inv _ Hv) as (s0 & [= <-] & Hlen & _).
  split.
  - destruct n; [simpl in Hlen; lia | reflexivity].
  - destruct (trim n); [simpl in Hlen; lia | reflexivity].
Qed.

(** *** Escaping the message of a redirect *)

Lemma has_unpaired_surrogate_head (c : N) (s : jsstring) :
  has_unpaired_surrogate (c :: s) = false -> is_trailing_surrogate c = false.
Proof. simpl. destruct (is_trailing_surrogate c); [discriminate | auto]. Qed.

Lemma has_unpaired_surrogate_app_l (a b : jsstring) :
  has_unpaired_surrogate a = false ->
  has_unpaired_surrogate (a ++ b) = has_unpaired_surrogate b.
Proof.
  enough (H : (has_unpaired_surrogate a = false ->
               has_unpaired_surrogate (a ++ b) = has_unpaired_surrogate b)
              /\ (forall c, has_unpaired_surrogate (c :: a) = false ->
                    has_unpaired_surrogate (c :: a ++ b)
                    = has_unpaired_surrogate b)) by apply H.
  induction a as [|d a [IH1 IH2]].
  - split; [reflexivity|]. intros c. simpl.
    destruct (is_trailing_surrogate c); [discriminate|].
    destruct (is_leading_surrogate c); [discriminate|]. reflexivity.
  - split; [apply IH2|]. intros c.
    change (has_unpaired_surrogate (c :: d :: a) = false ->
            has_unpaired_surrogate (c :: d :: a ++ b)
            = has_unpaired_surrogate b).
    cbn [has_unpaired_surrogate].
    destruct (is_trailing_surrogate c); [discriminate|].
    destruct (is_leading_surrogate c).
    + destruct (is_trailing_surrogate d); [exact IH1 | discriminate].
    + exact (IH2 d).
Qed.

Lemma has_unpaired_surrogate_app_r (a b : jsstring) :
  has_unpaired_surrogate a = true ->
  has_unpaired_surrogate b = false ->
  has_unpaired_surrogate (a ++ b) = true.
Proof.
  intros Ha Hb.
  assert (Hhead : match b with
                  | d :: _ => is_trailing_surrogate d = false
                  | [] => True
                  end).
  { destruct b as [|d b']; [exact I|].
    exact (has_unpaired_surrogate_head d b' Hb). }
  clear Hb. revert Ha.
  enough (H : (has_unpaired_surrogate a = true ->
               has_unpaired_surrogate (a ++ b) = true)
              /\ (forall c, has_unpaired_surrogate (c :: a) = true ->
                    has_unpaired_surrogate (c :: a ++ b) = true))
    by apply H.
  induction a as [|d a [IH1 IH2]].
  - split; [discriminate|]. intros c. simpl.
    destruct (is_trailing_surrogate c); [reflexivity|].
    destruct (is_leading_surrogate c); [|discriminate].
    intros _. destruct b as [|d b']; [reflexivity|]. rewrite Hhead.
    reflexivity.
  - split; [apply IH2|]. intros c.
    change (has_unpaired_surrogate (c :: d :: a) = true ->
            has_unpaired_surrogate (c :: d :: a ++ b) = true).
    cbn [has_unpaired_surrogate].
    destruct (is_trailing_surrogate c); [reflexivity|].
    destruct (is_leading_surrogate c).
    + destruct (is_trailing_surrogate d); [exact IH1 | reflexivity].
    + exact (IH2 d).
Qed.

(** A string quoted between two fixed texts that escape well: the
    message escapes exactly when the quoted string does. *)
Lemma has_unpaired_surrogate_quoted (pre nm post : jsstring) :
  has_unpaired_surrogate pre = false ->
  has_unpaired_surrogate post = false ->
  has_unpaired_surrogate (pre ++ nm ++ post) = has_unpaired_surrogate nm.
Proof.
  intros Hpre Hpost. rewrite (has_unpaired_surrogate_app_l _ _ Hpre).
  destruct (has_unpaired_surrogate nm) eqn:Hnm.
  - apply has_unpaired_surrogate_app_r; assumption.
  - rewrite (has_unpaired_surrogate_app_l _ _ Hnm). exact Hpost.
Qed.

Lemma answered_redirect (url message type : jsstring) :
  answered (redirectWithMessage url message type)
  = if has_unpaired_surrogate message then error_handler URIError
    else Redirect url message type.
Proof.
  unfold redirectWithMessage.
  destruct (has_unpaired_surrogate message); reflexivity.
Qed.

(** A redirect with one of the fixed messages is always sent. *)
Lemma answered_redirect_fixed (url message type : jsstring) :
  has_unpaired_surrogate message = false ->
  answered (redirectWithMessage url message type)
  = Redirect url message type.
Proof. intros H. rewrite answered_redirect, H. reflexivity. Qed.

(** A redirect whose message quotes a name is sent unless the name holds
    an unpaired surrogate; then the error-handling middleware answers. *)
Lemma answered_redirect_quoting (url pre nm post type : jsstring) :
  has_unpaired_surrogate pre = false ->
  has_unpaired_surrogate post = false ->
  answered (redirectWithMessage url (pre ++ nm ++ post) type)
  = if has_unpaired_surrogate nm then error_handler URIError
    else Redirect url (pre ++ nm ++ post) type.
Proof.
  intros Hpre Hpost.
  rewrite answered_redirect, has_unpaired_surrogate_quoted by assumption.
  reflexivity.
Qed.

(** *** The middleware *)

Lemma validate_pass (e : env) (n b : jsstring) :
  isValidName (VString n) = true ->
  isValidBirthDate (env_today e) (env_minNow e) b = true ->
  validateStudentData e (VString n) (VString b)
  = inr (Next (sanitizeName (VString n)) b).
Proof.
  intros Hn Hb. unfold validateStudentData.
  destruct (isValidName_truthy n Hn) as [-> ->].
  rewrite (isValidBirthDate_nonempty _ _ _ Hb), Hn. simpl ToString.
  cbv iota beta. rewrite Hb. reflexivity.
Qed.

Ltac validate_step :=
  cbn [app length Nat.ltb Nat.leb negb]; cbv beta iota.

Lemma validate_Next (e : env) (name0 birth0 : jsval) (nm bd : jsstring) :
  validateStudentData e name0 birth0 = inr (Next nm bd) ->
  isValidName name0 = true
  /\ truthy birth0 = true
  /\ ToString birth0 = inr bd
  /\ isValidBirthDate (env_today e) (env_minNow e) bd = true
  /\ nm = sanitizeName name0.
Proof.
  unfold validateStudentData. cbv zeta.
  destruct (truthy name0) eqn:Htn; validate_step.
  2:{ destruct (truthy birth0); validate_step; [|discriminate].
      destruct (ToString birth0) as [err|b]; discriminate. }
  destruct name0 as [| |bb|n|s|o]; try discriminate.
  destruct (truthy (VString (trim s))); validate_step.
  2:{ destruct (truthy birth0); validate_step; [|discriminate].
      destruct (ToString birth0) as [err|b]; discriminate. }
  destruct (isValidName (VString s)) eqn:Hn; validate_step.
  2:{ destruct (truthy birth0); validate_step; [|discriminate].
      destruct (ToString birth0) as [err|b]; discriminate. }
  destruct (truthy birth0); validate_step; [|discriminate].
  destruct (ToString birth0) as [err|b]; [discriminate|].
  destruct (isValidBirthDate _ _ b) eqn:Hb; validate_step;
    [|discriminate].
  intros [= <- <-]. auto.
Qed.

Lemma validate_Rejected (e : env) (name0 birth0 : jsval) (r : response) :
  validateStudentData e name0 birth0 = inr (Rejected r) ->
  exists errors, r = JsonErrors 400 errors /\ errors <> [].
Proof.
  unfold validateStudentData.
  set (finish := fun (errors : list jsstring) (birth : jsstring) =>
                   if (0 <? length errors)%nat
                   then Rejected (JsonErrors 400 errors)
                   else Next (sanitizeName name0) birth).
  assert (Hfinish : forall errors b,
            finish errors b = Rejected r ->
            exists errors, r = JsonErrors 400 errors /\ errors <> []).
  { intros errors b. unfold finish.
    destruct errors as [|x errors]; [discriminate|].
    simpl. intros [= <-]. eexists. split; [reflexivity | discriminate]. }
  cbv zeta.
  destruct (if negb (truthy name0) then _ else _) as [err|errors1];
    [discriminate|].
  destruct (negb (truthy birth0)).
  - intros [= H]. exact (Hfinish _ _ H).
  - destruct (ToString birth0) as [err|b]; [discriminate|].
    intros [= H]. exact (Hfinish _ _ H).
Qed.

Lemma validate_Rejected_outcome (e : env) (name0 birth0 : jsval)
    (r : response) :
  validateStudentData e name0 birth0 = inr (Rejected r) ->
  outcome_of r = Some ValidationFailure.
Proof.
  intros H. destruct (validate_Rejected _ _ _ _ H) as (errors & -> & _).
  reflexivity.
Qed.

Lemma rejected_intro (r : response) (o : outcome) :
  outcome_of r = Some o -> o <> Success -> rejected r.
Proof. intros H1 H2. exists o. auto. Qed.

(** The fixed messages hold no surrogate: their redirects are sent. *)
Ltac fixed_redirects :=
  repeat match goal with
         | |- context [answered (redirectWithMessage ?u (js ?m) ?t)] =>
             rewrite (answered_redirect_fixed u (js m) t eq_refl)
         end.

(** The three success messages quote a name between fixed texts. *)
Ltac quoting_redirects :=
  repeat match goal with
         | |- context [answered (redirectWithMessage ?u
                                   (js ?a ++ ?nm ++ js ?b) ?t)] =>
             rewrite (answered_redirect_quoting u (js a) nm (js b) t
                        eq_refl eq_refl)
         end.

(** C2.  When the name and the birth date pass validation and a stored
    record has the sanitized name up to case, the add is refused with
    the duplicate-name outcome and the collection is the same list. *)
Theorem add_student_duplicate (e : env) (students : list student)
    (name0 birth0 : jsstring) (s : student) :
  isValidName (VString name0) = true ->
  isValidBirthDate (env_today e) (env_minNow e) birth0 = true ->
  s ∈ students ->
  toLowerCase (name s) = toLowerCase (sanitizeName (VString name0)) ->
  (add_student e students (VString name0) (VString birth0)).1 = students
  /\ outcome_of (add_student e students (VString name0) (VString birth0)).2
     = Some DuplicateName.
Proof.
  intros Hn Hb Hin Hci. unfold add_student.
  rewrite (validate_pass e name0 birth0 Hn Hb).
  destruct (list_find _ students) as [[i x]|] eqn:Hfind.
  - fixed_redirects. split; reflexivity.
  - apply list_find_None in Hfind.
    rewrite Forall_forall in Hfind. destruct (Hfind s Hin Hci).
Qed.

(** C3 (amended).  When the name and the birth date pass validation and
    no stored record has the sanitized name up to case, the add appends
    exactly one record at the end, made of the generated identifier, the
    sanitized name, the birth date as given and the creation stamp; the
    records already stored are untouched.  The answer is the success
    redirect to the list page, whose message quotes the sanitized name;
    when that name holds an unpaired surrogate the message cannot be
    escaped and the answer is the one of the error-handling middleware,
    the record being appended all the same. *)
Theorem add_student_appends (e : env) (students : list student)
    (name0 birth0 : jsstring) :
  isValidName (VString name0) = true ->
  isValidBirthDate (env_today e) (env_minNow e) birth0 = true ->
  (forall s, s ∈ students ->
     toLowerCase (name s) <> toLowerCase (sanitizeName (VString name0))) ->
  add_student e students (VString name0) (VString birth0)
  = (students ++
       [ {| id := generateStudentId (env_idNow e) (env_random36 e);
            name := sanitizeName (VString name0);
            birth := birth0;
            createdAt := Some (getCurrentISODate (env_stampNow e));
            updatedAt := None |} ],
     if has_unpaired_surrogate (sanitizeName (VString name0))
     then ErrorAnswer 500
            (js "Une erreur interne est survenue. Veuillez réessayer.")
     else Redirect (js "/users")
            (js "L'étudiant " ++ sanitizeName (VString name0)
             ++ js " a été ajouté avec succès !")
            (js "success")).
Proof.
  intros Hn Hb Hfresh. unfold add_student.
  rewrite (validate_pass e name0 birth0 Hn Hb).
  destruct (list_find _ students) as [[i x]|] eqn:Hfind.
  - apply list_find_Some in Hfind as (Hx & Hci & _).
    destruct (Hfresh x); [|exact Hci].
    apply list_elem_of_lookup. eauto.
  - quoting_redirects. reflexivity.
Qed.


(** C5.  A delete whose identifier is invalid or matches no record is
    refused and the collection is the same list.  Otherwise exactly one
    record goes, the first one bearing the identifier, and what remains
    is the records before it followed by the records after it.  The
    answer is then the success redirect, or the answer of the
    error-handling middleware when the name of the record cannot be
    escaped. *)
Theorem delete_student_removes_one (students : list student)
    (studentId : jsstring) :
  let res := delete_student students studentId in
  let refused :=
    isValidStudentId (VString studentId) = false
    \/ (forall s, s ∈ students -> id s <> studentId) in
  (refused -> res.1 = students /\ rejected res.2)
  /\ (~ refused ->
      exists i old,
        students !! i = Some old
        /\ id old = studentId
        /\ (forall j y, students !! j = Some y -> (j < i)%nat ->
              id y <> studentId)
        /\ res.1 = take i students ++ drop (S i) students
        /\ students = take i students ++ old :: drop (S i) students
        /\ S (length res.1) = length students
        /\ (has_unpaired_surrogate (name old) = false ->
            outcome_of res.2 = Some Success)
        /\ (has_unpaired_surrogate (name old) = true ->
            res.2 = error_handler URIError)).
Proof.
  intros res refused. subst res refused. unfold delete_student.
  fixed_redirects.
  destruct (isValidStudentId (VString studentId)) eqn:Hid; simpl negb;
    cbv iota.
  2:{ split; [|intros Hnot; destruct Hnot; auto].
      intros _. split; [reflexivity|].
      apply (rejected_intro _ InvalidId); [reflexivity | discriminate]. }
  destruct (list_find (fun s => id s = studentId) students)
    as [[i old]|] eqn:Hidx.
  2:{ split; [|intros Hnot; destruct Hnot; right].
      - intros _. split; [reflexivity|].
        apply (rejected_intro _ NotFound); [reflexivity | discriminate].
      - apply list_find_None in Hidx.
        rewrite Forall_forall in Hidx. exact Hidx. }
  apply list_find_Some in Hidx as (Hold & Hoid & Hfirst).
  split.
  - intros [Hbad | Hnone]; [discriminate|].
    destruct (Hnone old); [|exact Hoid].
    apply list_elem_of_lookup. eauto.
  - intros _. exists i, old. quoting_redirects. simpl.
    split; [exact Hold|]. split; [exact Hoid|]. split; [exact Hfirst|].
    split; [apply delete_take_drop|].
    split; [symmetry; apply take_drop_middle, Hold|].
    split; [rewrite length_delete by eauto;
            apply lookup_lt_Some in Hold; lia|].
    split; intros ->; reflexivity.
Qed.

Lemma NoDup_insert_other {A : Type} (l : list A) (i : nat) (y : A) :
  NoDup l ->
  (forall j, j <> i -> l !! j <> Some y) ->
  NoDup (<[i := y]> l).
Proof.
  intros Hnd Hy. apply NoDup_alt. intros a b x Ha Hb.
  apply list_lookup_insert_Some in Ha, Hb.
  destruct Ha as [(-> & -> & _) | (Hai & Ha)],
           Hb as [(-> & Hyx & _) | (Hbi & Hb)].
  - reflexivity.
  - destruct (Hy b); auto.
  - subst x. destruct (Hy a); auto.
  - eapply NoDup_alt; eauto.
Qed.

Lemma seed_invariant :
  lowers_ascii toLowerCase ->
  ids_distinct students0 /\ names_distinct students0.
Proof.
  intros Hlow. split.
  - unfold ids_distinct. apply (bool_decide_unpack _). vm_compute. exact I.
  - unfold names_distinct, students0. simpl fmap.
    rewrite !Hlow by (vm_compute; repeat constructor).
    apply (bool_decide_unpack _). vm_compute. exact I.
Qed.

Lemma add_student_invariant (e : env) (students : list student)
    (n b : jsval) :
  ids_distinct students -> names_distinct students ->
  generateStudentId (env_idNow e) (env_random36 e) ∉ id <$> students ->
  ids_distinct (add_student e students n b).1
  /\ names_distinct (add_student e students n b).1.
Proof.
  intros Hids Hnames Hnew. unfold add_student.
  destruct (validateStudentData e n b) as [err|[r|nm bd]]; [auto|auto|].
  destruct (list_find _ students) as [[i x]|] eqn:Hfind; [auto|].
  apply list_find_None in Hfind. rewrite Forall_forall in Hfind.
  unfold ids_distinct, names_distinct. simpl. rewrite !fmap_app. simpl.
  split; apply NoDup_app; (split; [assumption|]);
    (split; [|apply NoDup_singleton]); intros x Hx Hin;
    apply list_elem_of_singleton in Hin; subst x.
  - exact (Hnew Hx).
  - apply list_elem_of_fmap in Hx as (s & Hs & Hin).
    exact (Hfind s Hin (eq_sym Hs)).
Qed.

Lemma update_student_invariant (e : env) (students : list student)
    (sid : jsstring) (n b : jsval) :
  ids_distinct students -> names_distinct students ->
  ids_distinct (update_student e students sid n b).1
  /\ names_distinct (update_student e students sid n b).1.
Proof.
  intros Hids Hnames. unfold update_student.
  destruct (validateStudentData e n b) as [err|[r|nm bd]]; [auto|auto|].
  destruct (negb (isValidStudentId (VString sid))); [auto|].
  destruct (list_find (fun s => id s = sid) students)
    as [[i old]|] eqn:Hidx; [|auto].
  apply list_find_Some in Hidx as (Hold & Hoid & _).
  destruct (list_find _ students) as [[j other]|] eqn:Hdup; [auto|].
  apply list_find_None in Hdup. rewrite Forall_forall in Hdup.
  unfold ids_distinct, names_distinct in *. simpl.
  rewrite !list_fmap_insert. simpl. split.
  - rewrite list_insert_id; [exact Hids|].
    rewrite list_lookup_fmap, Hold. reflexivity.
  - apply NoDup_insert_other; [exact Hnames|].
    intros j Hj Hlook. rewrite list_lookup_fmap in Hlook.
    destruct (students !! j) as [sj|] eqn:Hsj; [|discriminate].
    simpl in Hlook. injection Hlook as Hci.
    assert (Hin : sj ∈ students) by (apply list_elem_of_lookup; eauto).
    destruct (decide (id sj = sid)) as [Hsame|Hdiff].
    + apply Hj. eapply NoDup_alt; [exact Hids| |].
      * rewrite list_lookup_fmap, Hsj. simpl. reflexivity.
      * rewrite list_lookup_fmap, Hold. simpl. congruence.
    + exact (Hdup sj Hin (conj Hci Hdiff)).
Qed.

Lemma delete_student_invariant (students : list student) (sid : jsstring) :
  ids_distinct students -> names_distinct students ->
  ids_distinct (delete_student students sid).1
  /\ names_distinct (delete_student students sid).1.
Proof.
  intros Hids Hnames. unfold delete_student.
  destruct (negb (isValidStudentId (VString sid))); [auto|].
  destruct (list_find _ students) as [[i old]|]; [|auto].
  unfold ids_distinct, names_distinct in *. simpl.
  rewrite !list_fmap_delete.
  split; (eapply sublist_NoDup; [|apply sublist_delete]; assumption).
Qed.

Lemma reachable_invariant (students : list student) :
  lowers_ascii toLowerCase ->
  reachable_with_new_ids students ->
  ids_distinct students /\ names_distinct students.
Proof.
  intros Hlow Hreach.
  induction Hreach as [|students r _ [Hids Hnames] Hnew].
  - apply seed_invariant, Hlow.
  - destruct r as [e n b | e sid n b | sid]; simpl in *.
    + apply add_student_invariant; assumption.
    + apply update_student_invariant; assumption.
    + apply delete_student_invariant; assumption.
Qed.

Lemma reachable_with_new_ids_reachable (students : list student) :
  reachable_with_new_ids students -> reachable students.
Proof.
  induction 1 as [|students r _ IH _]; [apply reachable_seed|].
  apply reachable_request, IH.
Qed.

(** C1 (amended).  From the five seeded records, after any sequence of
    add, update and delete requests in which every add drew an identifier
    that no stored record bears, no two records of the collection have
    names that are equal up to case. *)
Theorem names_unique_invariant (students : list student)
    (i j : nat) (si sj : student) :
  lowers_ascii toLowerCase ->
  reachable_with_new_ids students ->
  students !! i = Some si ->
  students !! j = Some sj ->
  i <> j ->
  ~ same_name_ci (name si) (name sj).
Proof.
  intros Hlow Hreach Hi Hj Hij Hci.
  destruct (reachable_invariant students Hlow Hreach) as [_ Hnames].
  apply Hij. eapply NoDup_alt; [exact Hnames| |].
  - rewrite list_lookup_fmap, Hi. reflexivity.
  - rewrite list_lookup_fmap, Hj. simpl. f_equal. symmetry. exact Hci.
Qed.

(** *** Stored names stay valid *)

(** C10.  A name accepted by [isValidName] goes through [sanitizeName]
    with nothing but whitespace normalisation: the result is the trimmed
    name with its whitespace runs collapsed, it keeps every character
    that is not whitespace, its length lies between 2 and 50, and it is
    itself accepted by [isValidName].  Consequently the name written by
    a successful add or update is accepted by [isValidName]. *)
Theorem valid_name_sanitized (v : jsval) :
  isValidName v = true ->
  (exists s, v = VString s
     /\ sanitizeName v = replace_ws_runs false (trim s)
     /\ filter not_ws (sanitizeName v) = filter not_ws s)
  /\ (2 <= length (sanitizeName v) <= 50)%nat
  /\ isValidName (VString (sanitizeName v)) = true
  /\ (forall e students name0 birth0,
        v = VString name0 ->
        outcome_of (add_student e students (VString name0) birth0).2
        = Some Success ->
        exists r, (add_student e students (VString name0) birth0).1
                  = students ++ [r]
                  /\ name r = sanitizeName v
                  /\ isValidName (VString (name r)) = true)
  /\ (forall e students studentId name0 birth0,
        v = VString name0 ->
        outcome_of
          (update_student e students studentId (VString name0) birth0).2
        = Some Success ->
        exists i r,
          (update_student e students studentId (VString name0) birth0).1
            !! i = Some r
          /\ id r = studentId
          /\ name r = sanitizeName v
          /\ isValidName (VString (name r)) = true).
Proof.
  intros Hv. destruct (isValidName_inv _ Hv) as (s & -> & _).
  destruct (sanitizeName_of_valid s Hv) as (Hsan & Hkeep & Hlen & Hvalid).
  split; [exists s; auto|]. split; [exact Hlen|]. split; [exact Hvalid|].
  split.
  - intros e students name0 birth0 [= <-]. unfold add_student.
    destruct (validateStudentData e (VString s) birth0)
      as [err|[r|nm bd]] eqn:Hval.
    + discriminate.
    + simpl. rewrite (validate_Rejected_outcome _ _ _ _ Hval). discriminate.
    + apply validate_Next in Hval as (_ & _ & _ & _ & ->).
      fixed_redirects.
      destruct (list_find _ students) as [[i x]|]; [discriminate|].
      intros _. eexists. split; [reflexivity|]. simpl. auto.
  - intros e students sid name0 birth0 [= <-]. unfold update_student.
    destruct (validateStudentData e (VString s) birth0)
      as [err|[r|nm bd]] eqn:Hval.
    + discriminate.
    + simpl. rewrite (validate_Rejected_outcome _ _ _ _ Hval). discriminate.
    + apply validate_Next in Hval as (_ & _ & _ & _ & ->).
      fixed_redirects.
      destruct (negb (isValidStudentId (VString sid))); [discriminate|].
      destruct (list_find (fun s => id s = sid) students)
        as [[i old]|] eqn:Hidx; [|discriminate].
      apply list_find_Some in Hidx as (Hold & Hoid & _).
      destruct (list_find _ students) as [[j other]|]; [discriminate|].
      intros _. eexists i, _. simpl.
      split; [apply list_lookup_insert_eq; eapply lookup_lt_Some; eauto|].
      simpl. auto.
Qed.

(* =================================================================== *)
(** ** Further properties of the name utilities *)
(* =================================================================== *)

Lemma has_dangerous_false (l : jsstring) :
  has_dangerous l = false <-> Forall (fun c => is_dangerous c = false) l.
Proof.
  unfold has_dangerous. induction l as [|c l IH]; simpl.
  - split; [constructor | reflexivity].
  - rewrite orb_false_iff, IH. split.
    + intros [Hc Hl]. constructor; assumption.
    + intros H. apply Forall_cons in H. exact H.
Qed.

Lemma remove_dangerous_clean (l : jsstring) :
  Forall (fun c => is_dangerous c = false) (remove_dangerous l).
Proof.
  clear LocalTZA otherDateFormats toLowerCase.
  unfold remove_dangerous. apply Forall_forall. intros c Hc.
  apply list_elem_of_filter in Hc. tauto.
Qed.

(** Whatever it is given, [sanitizeName] answers a string of at most 50
    characters that holds none of the five dangerous characters. *)
Theorem sanitizeName_output_safe (v : jsval) :
  has_dangerous (sanitizeName v) = false
  /\ (length (sanitizeName v) <= 50)%nat.
Proof.
  clear LocalTZA otherDateFormats toLowerCase.
  unfold sanitizeName.
  destruct (negb (truthy v) || negb (typeof_is_string v));
    [split; [reflexivity | simpl; lia]|].
  destruct v as [| |b|n|s|]; try (split; [reflexivity | simpl; lia]).
  unfold substring0. split.
  - apply has_dangerous_false, Forall_take, remove_dangerous_clean.
  - rewrite length_take. lia.
Qed.

Lemma trim_idempotent (s : jsstring) : trim (trim s) = trim s.
Proof.
  destruct (trim_trimmed_of s) as (_ & _ & _ & _ & _ & Hh & Hl).
  apply trim_fixed; assumption.
Qed.

(** Validity and the sanitized form of a name depend on the trimmed name
    only: whitespace around a name changes neither. *)
Theorem name_checks_ignore_outer_whitespace (s : jsstring) :
  isValidName (VString s) = isValidName (VString (trim s))
  /\ sanitizeName (VString s) = sanitizeName (VString (trim s)).
Proof.
  unfold isValidName, sanitizeName.
  destruct s as [|c s']; [split; reflexivity|].
  destruct (trim (c :: s')) as [|d t] eqn:Ht.
  - split; reflexivity.
  - rewrite <- Ht, trim_idempotent, Ht. split; reflexivity.
Qed.

Lemma replace_ws_runs_idempotent (t : jsstring) :
  replace_ws_runs false (replace_ws_runs false t) = replace_ws_runs false t
  /\ replace_ws_runs true (replace_ws_runs true t) = replace_ws_runs true t.
Proof.
  induction t as [|c r [IH1 IH2]]; [split; reflexivity|].
  simpl. destruct (is_whitespace c) eqn:Hc.
  - split; [|exact IH2].
    simpl. change (is_whitespace SPACE) with true. cbv iota.
    rewrite IH2. reflexivity.
  - simpl. rewrite Hc, IH1. split; reflexivity.
Qed.

Lemma sanitizeName_stable (v : jsval) :
  isValidName v = true ->
  sanitizeName (VString (sanitizeName v)) = sanitizeName v.
Proof.
  intros Hv. destruct (isValidName_inv _ Hv) as (s & -> & Hlen & _).
  destruct (sanitizeName_of_valid s Hv) as (Hsan & _ & _ & Hvalid).
  destruct (sanitizeName_of_valid _ Hvalid) as (Hsan2 & _).
  rewrite Hsan2, Hsan.
  destruct (trim_trimmed_of s) as (_ & _ & _ & _ & _ & Hh & Hl).
  destruct (two_ends (trim s) (proj1 Hlen) Hh Hl)
    as (c & r & x & Ht & Hc & Hx).
  destruct (replace_ws_runs_snoc false r x Hx) as [m Hm].
  assert (Hshape : replace_ws_runs false (trim s) = c :: m ++ [x]).
  { rewrite Ht. simpl. rewrite Hc, Hm. reflexivity. }
  rewrite (trim_fixed (replace_ws_runs false (trim s))).
  - apply replace_ws_runs_idempotent.
  - rewrite Hshape. exact Hc.
  - rewrite Hshape. simpl. rewrite rev_app_distr. simpl. exact Hx.
Qed.

(** A name that [isValidName] accepts is sanitized once and for all:
    sanitizing the result again gives the same string. *)
Theorem sanitizeName_idempotent_on_valid (v : jsval) :
  isValidName v = true ->
  sanitizeName (VString (sanitizeName v)) = sanitizeName v.
Proof. exact (sanitizeName_stable v). Qed.

Lemma radix36_digits_nonempty (fuel : nat) (n : N) (acc : jsstring) :
  acc <> [] -> radix36_digits fuel n acc <> [].
Proof.
  revert n acc. induction fuel as [|fuel IH]; intros n acc Hacc; simpl.
  - exact Hacc.
  - destruct (n / 36 =? 0)%N; [discriminate|]. apply IH. discriminate.
Qed.

Lemma Number_toString36_nonempty (n : Z) : Number_toString36 n <> [].
Proof.
  unfold Number_toString36. destruct (n <? 0); [discriminate|].
  simpl. destruct (Z.abs_N n / 36 =? 0)%N; [discriminate|].
  apply radix36_digits_nonempty. discriminate.
Qed.

Lemma generateStudentId_valid (now : Z) (random36 : jsstring) :
  isValidStudentId (VString (generateStudentId now random36)) = true.
Proof.
  unfold generateStudentId.
  pose proof (Number_toString36_nonempty now) as Hne.
  destruct (Number_toString36 now) as [|c r]; [congruence|]. reflexivity.
Qed.

(** Every identifier that [generateStudentId] builds is accepted by
    [isValidStudentId], whatever the clock and the random digits. *)
Theorem generated_id_is_valid (now : Z) (random36 : jsstring) :
  isValidStudentId (VString (generateStudentId now random36)) = true.
Proof. exact (generateStudentId_valid now random36). Qed.


(* =================================================================== *)
(** ** Further properties of the date utilities *)
(* =================================================================== *)

Lemma DayWithinYear_range (t : Z) :
  0 <= DayWithinYear t < 365 + InLeapYear t.
Proof.
  unfold DayWithinYear, InLeapYear, InLeapYear_of_year, YearFromTime.
  pose proof (year_of_day_spec (Day t)) as Hs.
  rewrite DayFromYear_succ in Hs. lia.
Qed.

Lemma month_of_yearday_range (l dw : Z) :
  0 <= month_of_yearday l dw <= 11.
Proof.
  unfold month_of_yearday.
  repeat match goal with
    | |- context [?a <? ?b] => destruct (a <? b); try lia
    end.
Qed.

Lemma month_of_yearday_mono (l a b : Z) :
  a <= b -> month_of_yearday l a <= month_of_yearday l b.
Proof.
  intros Hab. unfold month_of_yearday.
  repeat match goal with
    | |- context [?x <? ?y] => destruct (Z.ltb_spec x y); try lia
    end.
Qed.

(** Within its month, the day of the year is at most 30 days after the
    first of the month. *)
Lemma yearday_in_month (l dw : Z) :
  (l = 0 \/ l = 1) -> 0 <= dw < 365 + l ->
  0 <= dw - month_start l (month_of_yearday l dw) <= 30.
Proof.
  intros Hl Hdw. unfold month_of_yearday.
  repeat match goal with
    | |- context [?x <? ?y] =>
        destruct (Z.ltb_spec x y);
        [destruct Hl; subst l; vm_compute month_start; lia|]
    end.
  destruct Hl; subst l; vm_compute month_start; lia.
Qed.

Lemma MonthFromTime_range (t : Z) : 0 <= MonthFromTime t <= 11.
Proof. apply month_of_yearday_range. Qed.

Lemma DateFromTime_range (t : Z) : 1 <= DateFromTime t <= 31.
Proof.
  unfold DateFromTime, MonthFromTime.
  pose proof (yearday_in_month (InLeapYear t) (DayWithinYear t)
                (InLeapYear_of_year_cases _) (DayWithinYear_range t)).
  lia.
Qed.

(** The year, month and day read off a time value name its day. *)
Lemma MakeDay_of_fields (t : Z) :
  MakeDay (YearFromTime t) (MonthFromTime t) (DateFromTime t) = Day t.
Proof.
  pose proof (MonthFromTime_range t) as Hm.
  unfold MakeDay.
  replace (MonthFromTime t / 12) with 0
    by (clear - Hm; Z.div_mod_to_equations; lia).
  replace (MonthFromTime t mod 12) with (MonthFromTime t)
    by (clear - Hm; Z.div_mod_to_equations; lia).
  rewrite Z.add_0_r.
  unfold DateFromTime, DayWithinYear, InLeapYear. lia.
Qed.

Lemma year_of_day_mono (a b : Z) :
  a <= b -> year_of_day a <= year_of_day b.
Proof.
  intros Hab.
  pose proof (year_of_day_spec a) as Ha.
  pose proof (year_of_day_spec b) as Hb.
  destruct (Z.le_gt_cases (year_of_day a) (year_of_day b)) as [|Hgt];
    [assumption|].
  assert (DayFromYear (year_of_day b + 1) <= DayFromYear (year_of_day a)).
  { destruct (Z.eq_dec (year_of_day b + 1) (year_of_day a)) as [->|];
      [lia|]. apply Z.lt_le_incl, DayFromYear_lt. lia. }
  lia.
Qed.

Lemma Day_mono (a b : Z) : a <= b -> Day a <= Day b.
Proof.
  intros Hab. unfold Day, msPerDay. apply Z.div_le_mono; lia.
Qed.

(** The calendar fields of two instants are ordered as the instants. *)
Lemma fields_ordered (a b : Z) :
  a <= b ->
  YearFromTime a < YearFromTime b
  \/ (YearFromTime a = YearFromTime b
      /\ (MonthFromTime a < MonthFromTime b
          \/ (MonthFromTime a = MonthFromTime b
              /\ DateFromTime a <= DateFromTime b))).
Proof.
  intros Hab. pose proof (Day_mono a b Hab) as Hday.
  pose proof (year_of_day_mono _ _ Hday) as Hyear.
  unfold YearFromTime in *.
  destruct (Z.eq_dec (year_of_day (Day a)) (year_of_day (Day b)))
    as [Heq | Hne]; [right; split; [exact Heq|] | left; lia].
  unfold MonthFromTime, DateFromTime, MonthFromTime, InLeapYear,
    DayWithinYear, YearFromTime.
  rewrite Heq.
  set (l := InLeapYear_of_year (year_of_day (Day b))).
  set (D := DayFromYear (year_of_day (Day b))).
  pose proof (month_of_yearday_mono l (Day a - D) (Day b - D)) as Hmono.
  destruct (Z.eq_dec (month_of_yearday l (Day a - D))
                     (month_of_yearday l (Day b - D))) as [Hm | Hm].
  - right. split; [exact Hm|]. rewrite Hm. lia.
  - left. lia.
Qed.


(** *** [isValidBirthDate] on the strings the date-only parser accepts *)

(** For a string of the shape [dddd-dd-dd] whose month lies in 1..12 and
    whose day lies in 1..31, [isValidBirthDate] answers true exactly when
    midnight UTC of that day (counted on from the first of the month) is
    not after the instant read first and not before the lower bound, the
    instant read second moved 150 calendar years back. *)
Theorem isValidBirthDate_in_range_iff (today minNow : Z) (s : jsstring)
    (y m d : Z) :
  ymd_fields s = Some (y, m, d) ->
  1 <= m <= 12 -> 1 <= d <= 31 ->
  isValidBirthDate today minNow s = true
  <-> MakeDay y (m - 1) d * msPerDay <= today
      /\ (forall minDate,
            setFullYear minNow (getFullYear today - 150) = Some minDate ->
            minDate <= MakeDay y (m - 1) d * msPerDay).
Proof.
  intros Hf Hm Hd. split.
  - intros Hv. apply isValidBirthDate_true_inv in Hv
      as (_ & date & Hparse & Htoday & Hmin).
    unfold Date_parse in Hparse.
    rewrite (parse_iso_date_only_fields s y m d Hf Hm Hd) in Hparse.
    injection Hparse as <-. auto.
  - intros [Htoday Hmin].
    apply (isValidBirthDate_day_up_to_31 today minNow s y m d); assumption.
Qed.

(** *** [calculateAge] *)

Lemma calculateAge_nonneg (now : Z) (s : jsstring) (birth : Z) :
  Date_parse s = Some birth ->
  LocalTime birth <= LocalTime now ->
  0 <= calculateAge now s.
Proof.
  intros Hparse Hle. unfold calculateAge. rewrite Hparse.
  destruct s as [|c s']; [lia|].
  unfold getFullYear, getMonth, getDate.
  destruct (fields_ordered _ _ Hle) as [Hy | [Hy [Hm | [Hm Hd]]]].
  - destruct (_ || _); lia.
  - rewrite Hy.
    destruct (Z.ltb_spec (MonthFromTime (LocalTime now)
                          - MonthFromTime (LocalTime birth)) 0); [lia|].
    destruct (Z.eqb_spec (MonthFromTime (LocalTime now)
                          - MonthFromTime (LocalTime birth)) 0); [lia|].
    simpl. lia.
  - rewrite Hy, Hm, Z.sub_diag, Z.sub_diag. simpl.
    destruct (Z.ltb_spec (DateFromTime (LocalTime now))
                (DateFromTime (LocalTime birth))); [lia|]. simpl. lia.
Qed.

(** [calculateAge] never answers a negative age for a birth date that is
    not after the current instant on the local clock. *)
Theorem calculateAge_not_negative (now : Z) (s : jsstring) (birth : Z) :
  Date_parse s = Some birth ->
  LocalTime birth <= LocalTime now ->
  0 <= calculateAge now s.
Proof. exact (calculateAge_nonneg now s birth). Qed.

(** *** [areDatesEqual] *)

(** [areDatesEqual] does not depend on the order of its arguments, and a
    string equals itself exactly when it is not empty and parses to a
    date: an unparseable string is not equal to itself. *)
Theorem areDatesEqual_symmetric_and_self (a b : jsstring) :
  areDatesEqual a b = areDatesEqual b a
  /\ (areDatesEqual a a = true <-> a <> [] /\ Date_parse a <> None).
Proof.
  unfold areDatesEqual. split.
  - destruct a as [|ca a'], b as [|cb b']; try reflexivity.
    destruct (Date_parse (ca :: a')), (Date_parse (cb :: b'));
      try reflexivity.
    apply Z.eqb_sym.
  - destruct a as [|ca a'].
    + split; [discriminate | intros [H _]; congruence].
    + destruct (Date_parse (ca :: a')) as [t|].
      * rewrite Z.eqb_refl. split; [intros _; split; discriminate | auto].
      * split; [discriminate | intros [_ H]; congruence].
Qed.

(** Two strings that [areDatesEqual] holds equal are shown as the same
    French date and give the same age. *)
Theorem areDatesEqual_same_display (a b : jsstring) (now : Z) :
  areDatesEqual a b = true ->
  formatDateToFrench a = formatDateToFrench b
  /\ calculateAge now a = calculateAge now b.
Proof.
  unfold areDatesEqual, formatDateToFrench, calculateAge.
  destruct a as [|ca a'], b as [|cb b']; try discriminate.
  destruct (Date_parse (ca :: a')) as [t1|],
           (Date_parse (cb :: b')) as [t2|]; try discriminate.
  intros H. apply Z.eqb_eq in H. subst t2. split; reflexivity.
Qed.


(** *** The age of an accepted birth date *)

Lemma month_start_leap (l m : Z) :
  0 <= m <= 11 ->
  month_start l m = month_start 0 m + (if m <? 2 then 0 else l).
Proof.
  intros Hm.
  assert (Hm' : m = 0 \/ m = 1 \/ m = 2 \/ m = 3 \/ m = 4 \/ m = 5 \/ m = 6
                \/ m = 7 \/ m = 8 \/ m = 9 \/ m = 10 \/ m = 11) by lia.
  repeat (destruct Hm' as [-> | Hm']; [vm_compute; destruct l; reflexivity|]).
  subst m. vm_compute. destruct l; reflexivity.
Qed.

Lemma month_start_bounds (l m : Z) :
  (l = 0 \/ l = 1) -> 0 <= m <= 11 ->
  0 <= month_start 0 m <= month_start l m /\ month_start l m <= month_start 0 m + 1.
Proof.
  intros Hl Hm. rewrite (month_start_leap l m Hm).
  assert (0 <= month_start 0 m).
  { assert (Hm' : m = 0 \/ m = 1 \/ m = 2 \/ m = 3 \/ m = 4 \/ m = 5
                  \/ m = 6 \/ m = 7 \/ m = 8 \/ m = 9 \/ m = 10 \/ m = 11)
      by lia.
    repeat (destruct Hm' as [-> | Hm']; [vm_compute; discriminate|]).
    subst m. vm_compute. discriminate. }
  destruct (m <? 2); lia.
Qed.

Lemma Day_of_MakeDate (day time : Z) :
  0 <= time < msPerDay -> Day (MakeDate day time) = day.
Proof.
  intros Ht. unfold Day, MakeDate, msPerDay in *.
  clear - Ht. Z.div_mod_to_equations. lia.
Qed.

Lemma TimeWithinDay_range (t : Z) : 0 <= TimeWithinDay t < msPerDay.
Proof. unfold TimeWithinDay, msPerDay. apply Z.mod_pos_bound. lia. Qed.

Lemma time_of_day_and_time (t : Z) :
  t = MakeDate (Day t) (TimeWithinDay t).
Proof.
  unfold MakeDate, Day, TimeWithinDay, msPerDay.
  rewrite Z.mul_comm. apply Z.div_mod. lia.
Qed.

Lemma year_of_day_DayFromYear (y : Z) : year_of_day (DayFromYear y) = y.
Proof.
  apply year_of_day_unique.
  pose proof (DayFromYear_lt y (y + 1)). lia.
Qed.

(** The local time that [setFullYear] builds when the year goes 150 back:
    it lies between 54779 and 54793 days before the local time it starts
    from, and its day is in the year asked for or later. *)
Lemma MakeDay_in_year (y m d : Z) :
  0 <= m <= 11 ->
  MakeDay y m d
  = DayFromYear y + month_start (InLeapYear_of_year y) m + d - 1.
Proof.
  intros Hm. unfold MakeDay.
  replace (m / 12) with 0 by (clear - Hm; Z.div_mod_to_equations; lia).
  replace (m mod 12) with m by (clear - Hm; Z.div_mod_to_equations; lia).
  rewrite Z.add_0_r. reflexivity.
Qed.

Lemma back_150_years (lt : Z) :
  let day' := MakeDay (YearFromTime lt - 150) (MonthFromTime lt)
                (DateFromTime lt) in
  Day lt - 54793 <= day' <= Day lt - 54779
  /\ DayFromYear (YearFromTime lt - 150) <= day'.
Proof.
  cbv zeta.
  pose proof (MonthFromTime_range lt) as Hm.
  pose proof (DateFromTime_range lt) as Hd.
  pose proof (MakeDay_of_fields lt) as Hday.
  rewrite (MakeDay_in_year _ _ _ Hm) in Hday.
  rewrite (MakeDay_in_year _ _ _ Hm).
  pose proof (month_start_bounds (InLeapYear_of_year (YearFromTime lt))
                (MonthFromTime lt) (InLeapYear_of_year_cases _) Hm) as H1.
  pose proof (month_start_bounds
                (InLeapYear_of_year (YearFromTime lt - 150))
                (MonthFromTime lt) (InLeapYear_of_year_cases _) Hm) as H2.
  pose proof (DayFromYear_estimate (YearFromTime lt)) as H3.
  pose proof (DayFromYear_estimate (YearFromTime lt - 150)) as H4.
  revert Hd Hday H1 H2 H3 H4.
  generalize (month_start (InLeapYear_of_year (YearFromTime lt))
                (MonthFromTime lt)),
    (month_start (InLeapYear_of_year (YearFromTime lt - 150))
       (MonthFromTime lt)),
    (month_start 0 (MonthFromTime lt)),
    (DayFromYear (YearFromTime lt)),
    (DayFromYear (YearFromTime lt - 150)),
    (DateFromTime lt), (Day lt), (YearFromTime lt).
  clear. intros a b c D D' d day y. lia.
Qed.

(** In a time zone of constant offset, at an instant from 1970 on, a
    birth date that [isValidBirthDate] accepts has an age, by
    [calculateAge] at the same instant, from 0 to 150. *)
Theorem accepted_birth_date_age (c now : Z) (s : jsstring) :
  (forall t b, LocalTZA t b = c) ->
  0 <= now <= 8640000000000000 ->
  isValidBirthDate now now s = true ->
  0 <= calculateAge now s <= 150.
Proof.
  intros Htz Hnow Hv.
  apply isValidBirthDate_true_inv in Hv as (_ & date & Hparse & Hle & Hmin).
  split.
  { apply (calculateAge_nonneg now s date Hparse).
    unfold LocalTime. rewrite !Htz. lia. }
  set (lt := LocalTime now) in *.
  destruct (back_150_years lt) as [Hdays Hyear].
  set (day' := MakeDay (YearFromTime lt - 150) (MonthFromTime lt)
                 (DateFromTime lt)) in *.
  pose proof (TimeWithinDay_range lt) as Htwd.
  pose proof (time_of_day_and_time lt) as Hlt.
  assert (Hset : setFullYear now (getFullYear now - 150)
                 = Some (MakeDate day' (TimeWithinDay lt) - c)).
  { unfold setFullYear, getFullYear, UTC. fold lt. fold day'.
    rewrite Htz. unfold TimeClip.
    assert (Hin : Z.abs (MakeDate day' (TimeWithinDay lt) - c)
                  <= 8640000000000000).
    { assert (lt = now + c) by (unfold lt, LocalTime; rewrite Htz; lia).
      unfold MakeDate, msPerDay in *. lia. }
    apply Z.leb_le in Hin. rewrite Hin. reflexivity. }
  specialize (Hmin _ Hset).
  assert (Hbirth : day' <= Day (LocalTime date)).
  { rewrite <- (Day_of_MakeDate day' (TimeWithinDay lt) Htwd).
    apply Day_mono. unfold LocalTime. rewrite Htz. lia. }
  assert (Hyb : YearFromTime lt - 150 <= YearFromTime (LocalTime date)).
  { rewrite <- (year_of_day_DayFromYear (YearFromTime lt - 150)).
    unfold YearFromTime at 2. apply year_of_day_mono. lia. }
  unfold calculateAge. rewrite Hparse.
  destruct s as [|ch s']; [lia|].
  unfold getFullYear. fold lt. destruct (_ || _); lia.
Qed.


(** *** The creation stamp *)

Lemma pad4_digits (n : Z) :
  0 <= n <= 9999 ->
  padStart0 4 (Number_toString n)
  = [Z.to_N (48 + n / 1000); Z.to_N (48 + (n / 100) mod 10);
     Z.to_N (48 + (n / 10) mod 10); Z.to_N (48 + n mod 10)].
Proof.
  intros Hn.
  assert (Hall : Forall (fun n => padStart0 4 (Number_toString n)
                          = [Z.to_N (48 + n / 1000);
                             Z.to_N (48 + (n / 100) mod 10);
                             Z.to_N (48 + (n / 10) mod 10);
                             Z.to_N (48 + n mod 10)])
                   (seqZ 0 10000)).
  { apply (bool_decide_unpack _). vm_compute. exact I. }
  rewrite Forall_forall in Hall. apply Hall, elem_of_seqZ. lia.
Qed.

Lemma pad3_length (n : Z) : 0 <= n <= 999 -> length (padStart0 3 (Number_toString n)) = 3%nat.
Proof.
  intros Hn.
  assert (Hall : Forall (fun n => length (padStart0 3 (Number_toString n)) = 3%nat) (seqZ 0 1000)).
  { apply (bool_decide_unpack _). vm_compute. exact I. }
  rewrite Forall_forall in Hall. apply Hall, elem_of_seqZ. lia.
Qed.

Lemma digit_unit (k : Z) :
  0 <= k <= 9 ->
  is_digit (Z.to_N (48 + k)) = true /\ digit_val (Z.to_N (48 + k)) = k.
Proof.
  intros Hk. unfold is_digit, digit_val.
  rewrite andb_true_iff, !N.leb_le. lia.
Qed.

Lemma ymd_fields_of_digits (a1 a2 a3 a4 b1 b2 c1 c2 : Z) :
  Forall (fun a => 0 <= a <= 9) [a1; a2; a3; a4; b1; b2; c1; c2] ->
  ymd_fields [Z.to_N (48 + a1); Z.to_N (48 + a2); Z.to_N (48 + a3);
              Z.to_N (48 + a4); MINUS; Z.to_N (48 + b1); Z.to_N (48 + b2);
              MINUS; Z.to_N (48 + c1); Z.to_N (48 + c2)]
  = Some (1000 * a1 + 100 * a2 + 10 * a3 + a4, 10 * b1 + b2, 10 * c1 + c2).
Proof.
  intros Hall.
  repeat match goal with
    | H : Forall _ (_ :: _) |- _ => apply Forall_cons in H as [? H]
    end.
  unfold ymd_fields, forallb.
  repeat match goal with
    | H : 0 <= ?k <= 9 |- _ =>
        let Hd := fresh in let Hv := fresh in
        destruct (digit_unit k H) as [Hd Hv]; rewrite ?Hd, ?Hv; clear H
    end.
  reflexivity.
Qed.

Lemma year_in_range (now : Z) :
  -62167219200000 <= now <= 253402300799999 ->
  0 <= YearFromTime now <= 9999.
Proof.
  intros Hnow. unfold YearFromTime.
  assert (Hday : -719528 <= Day now <= 2932896).
  { unfold Day, msPerDay. clear - Hnow. Z.div_mod_to_equations. lia. }
  pose proof (year_of_day_mono _ _ (proj1 Hday)) as Hlo.
  pose proof (year_of_day_mono _ _ (proj2 Hday)) as Hhi.
  change (year_of_day (-719528)) with 0 in Hlo.
  change (year_of_day 2932896) with 9999 in Hhi. lia.
Qed.

(** For every instant of the years 0 to 9999, the stamp that
    [getCurrentISODate] writes has 24 characters, and its first ten
    characters are a date string that parses back to midnight UTC of the
    day of the instant. *)
Theorem getCurrentISODate_date_part (now : Z) :
  -62167219200000 <= now <= 253402300799999 ->
  length (getCurrentISODate now) = 24%nat
  /\ dateRegex_test (take 10 (getCurrentISODate now)) = true
  /\ Date_parse (take 10 (getCurrentISODate now))
     = Some (Day now * msPerDay).
Proof.
  intros Hnow. pose proof (year_in_range now Hnow) as Hy.
  pose proof (MonthFromTime_range now) as Hm.
  pose proof (DateFromTime_range now) as Hd.
  unfold getCurrentISODate.
  assert (((0 <=? YearFromTime now) && (YearFromTime now <=? 9999)) = true)
    as -> by (rewrite andb_true_iff, !Z.leb_le; lia).
  unfold pad. rewrite (pad4_digits _ Hy).
  rewrite (two_digits (MonthFromTime now + 1)) by lia.
  rewrite (two_digits (DateFromTime now)) by lia.
  change (js "-") with [MINUS].
  set (rest := js "T" ++ _).
  assert (Hrest : length rest = 14%nat).
  { subst rest.
    rewrite !length_app.
    rewrite (two_digits ((now / 3600000) mod 24))
      by (clear; Z.div_mod_to_equations; lia).
    rewrite (two_digits ((now / 60000) mod 60))
      by (clear; Z.div_mod_to_equations; lia).
    rewrite (two_digits ((now / 1000) mod 60))
      by (clear; Z.div_mod_to_equations; lia).
    rewrite pad3_length by (clear; Z.div_mod_to_equations; lia).
    reflexivity. }
  clearbody rest.
  split; [rewrite !length_app, Hrest; reflexivity|].
  cbn [app firstn]. change (take 0 rest) with (@nil N).
  set (y := YearFromTime now) in *. set (m := MonthFromTime now) in *.
  set (d := DateFromTime now) in *.
  assert (Hf : ymd_fields
                 [Z.to_N (48 + y / 1000); Z.to_N (48 + (y / 100) mod 10);
                  Z.to_N (48 + (y / 10) mod 10); Z.to_N (48 + y mod 10);
                  MINUS; Z.to_N (48 + (m + 1) / 10);
                  Z.to_N (48 + (m + 1) mod 10); MINUS;
                  Z.to_N (48 + d / 10); Z.to_N (48 + d mod 10)]
               = Some (y, m + 1, d)).
  { rewrite ymd_fields_of_digits.
    - f_equal. f_equal; [f_equal|]; clear - Hy Hm Hd;
        Z.div_mod_to_equations; lia.
    - repeat constructor; clear - Hy Hm Hd; Z.div_mod_to_equations; lia. }
  split.
  - unfold dateRegex_test. rewrite Hf. reflexivity.
  - unfold Date_parse.
    rewrite (parse_iso_date_only_fields _ y (m + 1) d Hf) by lia.
    replace (m + 1 - 1) with m by lia.
    subst y m d. rewrite MakeDay_of_fields. reflexivity.
Qed.

(* =================================================================== *)
(** ** Further properties of the handlers *)
(* =================================================================== *)

(** *** Birth values that are not strings

    [test] reads a number through its string form, which has no hyphen
    between digits: a number never passes [isValidBirthDate], and neither
    does a boolean.  Only a string, or an object that converts to a
    string of the shape of a date, reaches the [Date] constructor. *)

Lemma digits_of_uint_digits (u : Decimal.uint) :
  Forall (fun c => is_digit c = true) (digits_of_uint u).
Proof. induction u; simpl; constructor; auto. Qed.

Lemma is_digit_not_minus (c : N) :
  is_digit c = true -> (c =? MINUS)%N = false.
Proof.
  clear LocalTZA otherDateFormats toLowerCase.
  unfold is_digit, MINUS. intros H. apply andb_true_iff in H as [H _].
  apply N.leb_le in H. apply N.eqb_neq. lia.
Qed.

Lemma dateRegex_test_Number_toString (n : Z) :
  dateRegex_test (Number_toString n) = false.
Proof.
  unfold Number_toString.
  pose proof (digits_of_uint_digits (N.to_uint (Z.abs_N n))) as Hd.
  destruct (n <? 0); revert Hd;
    generalize (digits_of_uint (N.to_uint (Z.abs_N n))); intros l Hd.
  - do 10 (destruct l as [|? l]; [reflexivity|]).
    reflexivity.
  - destruct l as [|y1 [|y2 [|y3 [|y4 [|h1 [|m1 [|m2 [|h2 [|d1 [|d2 [|x l]
      ]]]]]]]]]]; try reflexivity.
    unfold dateRegex_test, ymd_fields.
    assert (H5 : (h1 =? MINUS)%N = false).
    { apply is_digit_not_minus.
      repeat match goal with
             | H : Forall _ (_ :: _) |- _ =>
                 apply Forall_cons in H; destruct H
             end.
      assumption. }
    rewrite H5, andb_false_r. reflexivity.
Qed.

Lemma isValidBirthDate_number_or_boolean (today minNow : Z) (v : jsval)
    (s : jsstring) :
  typeof_is_string v = false ->
  (forall o, v <> VObject o) ->
  ToString v = inr s ->
  isValidBirthDate today minNow s = false.
Proof.
  intros Hty Hobj Hs.
  destruct v as [| |bb|n|t|o]; try discriminate;
    try (injection Hs as <-; reflexivity).
  - injection Hs as <-. destruct bb; reflexivity.
  - injection Hs as <-. unfold isValidBirthDate.
    rewrite dateRegex_test_Number_toString.
    destruct (Number_toString n); reflexivity.
  - destruct (Hobj o eq_refl).
Qed.

(** *** What the middleware does with the body

    [validateStudentData] ends in one of three ways.  It throws a
    TypeError exactly when the name is a truthy value that is not a
    string (it has no [trim]), or when the birth value cannot be
    converted to a string.  It calls [next] exactly when the name passes
    [isValidName] and the birth value, read as a string, passes
    [isValidBirthDate]; the body it hands on holds the sanitized name and
    that birth date.  Otherwise it answers 400 with at least one error
    message. *)

Lemma validate_throws (e : env) (name0 birth0 : jsval) (err : exn) :
  validateStudentData e name0 birth0 = inl err
  <-> err = TypeError
      /\ (truthy name0 = true /\ typeof_is_string name0 = false
          \/ ToString birth0 = inl TypeError).
Proof.
  unfold validateStudentData. cbv zeta.
  match goal with
  | |- match ?E with inl _ => _ | inr x => @?B x end = _ <-> _ =>
      assert (HB : forall l, B l = inl err
                  <-> err = TypeError /\ ToString birth0 = inl TypeError);
      [ intros l; cbv beta
      | assert (HE : (truthy name0 = true /\ typeof_is_string name0 = false
                      /\ E = inl TypeError)
                     \/ ((truthy name0 = false
                          \/ typeof_is_string name0 = true)
                         /\ exists l, E = inr l));
        [ clear HB | set (E1 := E) in *; set (B1 := B) in * ] ]
  end.
  - destruct (ToString birth0) as [err0|b] eqn:Hs.
    + destruct birth0 as [| |bb|n|s|[s|]]; try discriminate Hs.
      injection Hs as <-. simpl.
      split; [intros [= <-]; auto | intros [-> _]; reflexivity].
    + destruct (negb (truthy birth0));
        (split; [discriminate | intros [_ H]; discriminate]).
  - destruct name0 as [| |bb|n|s|o]; cbn [truthy typeof_is_string].
    + right. split; [auto|]. eexists. reflexivity.
    + right. split; [auto|]. eexists. reflexivity.
    + destruct bb; [left; auto|]. right. split; [auto|]. eexists.
      reflexivity.
    + destruct (n =? 0); [|left; auto]. right. split; [auto|]. eexists.
      reflexivity.
    + right. split; [auto|].
      repeat match goal with
             | |- exists l, (if ?c then _ else _) = _ => destruct c
             end; eexists; reflexivity.
    + left. auto.
  - destruct HE as [(Ht & Hty & ->) | (Hn & l & ->)].
    + split; [intros [= <-]; auto | intros [-> _]; reflexivity].
    + etransitivity; [apply HB|].
      split; intros [H1 H2]; (split; [exact H1|]); [auto|].
      destruct H2 as [[Ht Hty]|H2]; [|exact H2].
      destruct Hn; congruence.
Qed.

Lemma ToString_valid_birth_truthy (today minNow : Z) (birth0 : jsval)
    (bd : jsstring) :
  ToString birth0 = inr bd ->
  isValidBirthDate today minNow bd = true ->
  truthy birth0 = true.
Proof.
  destruct birth0 as [| |bb|n|s|[s|]]; simpl; intros [= <-];
    try discriminate; try reflexivity.
  - destruct bb; [reflexivity | discriminate].
  - destruct (n =? 0) eqn:Hn; [|reflexivity].
    apply Z.eqb_eq in Hn. subst n. discriminate.
  - apply isValidBirthDate_nonempty.
Qed.

Lemma validate_pass_values (e : env) (name0 birth0 : jsval)
    (bd : jsstring) :
  isValidName name0 = true ->
  ToString birth0 = inr bd ->
  isValidBirthDate (env_today e) (env_minNow e) bd = true ->
  validateStudentData e name0 birth0 = inr (Next (sanitizeName name0) bd).
Proof.
  intros Hn Hs Hb.
  pose proof (ToString_valid_birth_truthy _ _ _ _ Hs Hb) as Ht.
  destruct (isValidName_inv _ Hn) as (n & -> & _).
  unfold validateStudentData.
  destruct (isValidName_truthy n Hn) as [-> ->].
  rewrite Ht, Hn, Hs. cbv zeta. validate_step. rewrite Hb. reflexivity.
Qed.

(** The three ways in which [validateStudentData] ends. *)
Theorem validateStudentData_outcomes (e : env) (name0 birth0 : jsval) :
  (forall err,
     validateStudentData e name0 birth0 = inl err
     <-> err = TypeError
         /\ (truthy name0 = true /\ typeof_is_string name0 = false
             \/ ToString birth0 = inl TypeError))
  /\ (forall nm bd,
        validateStudentData e name0 birth0 = inr (Next nm bd)
        <-> isValidName name0 = true
            /\ nm = sanitizeName name0
            /\ ToString birth0 = inr bd
            /\ isValidBirthDate (env_today e) (env_minNow e) bd = true)
  /\ ((exists err, validateStudentData e name0 birth0 = inl err)
      \/ (exists nm bd,
            validateStudentData e name0 birth0 = inr (Next nm bd))
      \/ (exists errors,
            validateStudentData e name0 birth0
            = inr (Rejected (JsonErrors 400 errors))
            /\ errors <> [])).
Proof.
  split; [intros err; apply validate_throws|]. split.
  - intros nm bd. split.
    + intros H. apply validate_Next in H as (Hn & _ & Hs & Hb & ->). auto.
    + intros (Hn & -> & Hs & Hb). apply validate_pass_values; assumption.
  - destruct (validateStudentData e name0 birth0)
      as [err|[r|nm bd]] eqn:Hval.
    + left. eauto.
    + right. right.
      destruct (validate_Rejected _ _ _ _ Hval) as (errors & -> & Hne).
      eauto.
    + right. left. eauto.
Qed.

(** *** What a request does to the array *)

Lemma handle_cases (students : list student) (r : request) :
  ((outcome_of (handle students r).2 = Some Success
    \/ (handle students r).2 = error_handler URIError)
   /\ match r with
      | ReqAdd _ _ _ => exists s, (handle students r).1 = students ++ [s]
      | ReqUpdate _ _ _ _ =>
          exists i s, (i < length students)%nat
                      /\ (handle students r).1 = <[i := s]> students
      | ReqDelete _ =>
          exists i, (i < length students)%nat
                    /\ (handle students r).1 = delete i students
      end)
  \/ ((rejected (handle students r).2
       \/ (handle students r).2 = error_handler TypeError)
      /\ (handle students r).1 = students).
Proof.
  destruct r as [e n b | e sid n b | sid]; simpl.
  - unfold add_student.
    destruct (validateStudentData e n b) as [err|[r|nm bd]] eqn:Hval.
    + right. split; [right|]; reflexivity.
    + right. split; [left|reflexivity].
      apply (rejected_intro _ ValidationFailure); [|discriminate].
      apply (validate_Rejected_outcome _ _ _ _ Hval).
    + fixed_redirects. quoting_redirects.
      destruct (list_find _ students) as [[i x]|].
      * right. split; [left|reflexivity].
        apply (rejected_intro _ DuplicateName); [reflexivity | discriminate].
      * left. split; [|eexists; reflexivity].
        destruct (has_unpaired_surrogate nm); [right | left]; reflexivity.
  - unfold update_student.
    destruct (validateStudentData e n b) as [err|[r|nm bd]] eqn:Hval.
    + right. split; [right|]; reflexivity.
    + right. split; [left|reflexivity].
      apply (rejected_intro _ ValidationFailure); [|discriminate].
      apply (validate_Rejected_outcome _ _ _ _ Hval).
    + fixed_redirects. quoting_redirects.
      destruct (negb (isValidStudentId (VString sid))).
      { right. split; [left|reflexivity].
        apply (rejected_intro _ InvalidId); [reflexivity | discriminate]. }
      destruct (list_find (fun s => id s = sid) students)
        as [[i old]|] eqn:Hidx.
      2:{ right. split; [left|reflexivity].
          apply (rejected_intro _ NotFound); [reflexivity | discriminate]. }
      apply list_find_Some in Hidx as (Hold & _ & _).
      destruct (list_find _ students) as [[j other]|].
      * right. split; [left|reflexivity].
        apply (rejected_intro _ DuplicateName); [reflexivity | discriminate].
      * left. split.
        -- destruct (has_unpaired_surrogate nm); [right | left]; reflexivity.
        -- exists i. eexists.
           split; [eapply lookup_lt_Some; eauto | reflexivity].
  - unfold delete_student. fixed_redirects.
    destruct (negb (isValidStudentId (VString sid))).
    { right. split; [left|reflexivity].
      apply (rejected_intro _ InvalidId); [reflexivity | discriminate]. }
    destruct (list_find (fun s => id s = sid) students)
      as [[i old]|] eqn:Hidx.
    2:{ right. split; [left|reflexivity].
        apply (rejected_intro _ NotFound); [reflexivity | discriminate]. }
    apply list_find_Some in Hidx as (Hold & _ & _).
    quoting_redirects.
    left. split.
    + destruct (has_unpaired_surrogate (name old)); [right | left];
        reflexivity.
    + exists i. split; [eapply lookup_lt_Some; eauto | reflexivity].
Qed.

(** A request that is answered with anything but the success redirect or
    the answer of the error-handling middleware leaves the collection as
    it was: the 400 of the middleware and the error redirects all come
    before the first write. *)
Theorem refusal_keeps_store (students : list student) (r : request) :
  outcome_of (handle students r).2 <> Some Success ->
  (forall err, (handle students r).2 <> error_handler err) ->
  (handle students r).1 = students.
Proof.
  intros Hno Hnoerr.
  destruct (handle_cases students r) as [[[Hok | Herr] _] | [_ Hsame]].
  - contradiction.
  - destruct (Hnoerr URIError Herr).
  - exact Hsame.
Qed.

(** A successful add makes the collection one record longer, a successful
    update leaves its length as it is, a successful delete makes it one
    record shorter. *)
Theorem success_changes_size (students : list student) (r : request) :
  outcome_of (handle students r).2 = Some Success ->
  match r with
  | ReqAdd _ _ _ =>
      length (handle students r).1 = S (length students)
  | ReqUpdate _ _ _ _ =>
      length (handle students r).1 = length students
  | ReqDelete _ =>
      S (length (handle students r).1) = length students
  end.
Proof.
  intros Hok.
  destruct (handle_cases students r)
    as [[_ Hshape] | [[(o & Ho & Hne) | Herr] _]].
  2:{ rewrite Hok in Ho. congruence. }
  2:{ rewrite Herr in Hok. discriminate. }
  destruct r as [e n b | e sid n b | sid].
  - destruct Hshape as (s & ->). rewrite length_app. simpl. lia.
  - destruct Hshape as (i & s & _ & ->). apply length_insert.
  - destruct Hshape as (i & Hi & ->).
    rewrite length_delete by (apply lookup_lt_is_Some; exact Hi). lia.
Qed.


(** *** Invariants of the reachable collections *)

Lemma handle_ids_distinct (students : list student) (r : request) :
  ids_distinct students ->
  id_is_new students r ->
  ids_distinct (handle students r).1.
Proof.
  intros Hids Hnew. unfold ids_distinct in *.
  destruct r as [e n b | e sid n b | sid]; simpl in *.
  - unfold add_student.
    destruct (validateStudentData e n b) as [err|[r|nm bd]];
      [exact Hids|exact Hids|].
    destruct (list_find _ students) as [[i x]|]; [exact Hids|].
    simpl. rewrite fmap_app. simpl. apply NoDup_app.
    split; [exact Hids|]. split; [|apply NoDup_singleton].
    intros x Hx Hin. apply list_elem_of_singleton in Hin. subst x.
    exact (Hnew Hx).
  - unfold update_student.
    destruct (validateStudentData e n b) as [err|[r|nm bd]];
      [exact Hids|exact Hids|].
    destruct (negb (isValidStudentId (VString sid))); [exact Hids|].
    destruct (list_find (fun s => id s = sid) students)
      as [[i old]|] eqn:Hidx; [|exact Hids].
    apply list_find_Some in Hidx as (Hold & _ & _).
    destruct (list_find _ students) as [[j other]|]; [exact Hids|].
    simpl. rewrite list_fmap_insert. simpl.
    rewrite list_insert_id; [exact Hids|].
    rewrite list_lookup_fmap, Hold. reflexivity.
  - unfold delete_student.
    destruct (negb (isValidStudentId (VString sid))); [exact Hids|].
    destruct (list_find _ students) as [[i old]|]; [|exact Hids].
    simpl. rewrite list_fmap_delete.
    eapply sublist_NoDup; [exact Hids | apply sublist_delete].
Qed.

Lemma reachable_ids_distinct (students : list student) :
  reachable_with_new_ids students -> ids_distinct students.
Proof.
  induction 1 as [|students r _ IH Hnew].
  - unfold ids_distinct. apply (bool_decide_unpack _). vm_compute. exact I.
  - apply handle_ids_distinct; assumption.
Qed.

(** From the five seeded records, after any sequence of requests in which
    each add draws a new identifier, no two records of the collection bear
    the same identifier. *)
Theorem ids_unique_invariant (students : list student)
    (i j : nat) (si sj : student) :
  reachable_with_new_ids students ->
  students !! i = Some si ->
  students !! j = Some sj ->
  i <> j ->
  id si <> id sj.
Proof.
  intros Hreach Hi Hj Hij Heq. apply Hij.
  eapply NoDup_alt; [exact (reachable_ids_distinct students Hreach)| |].
  - rewrite list_lookup_fmap, Hi. reflexivity.
  - rewrite list_lookup_fmap, Hj. simpl. congruence.
Qed.

Lemma handle_wellformed (students : list student) (r : request) :
  Forall (fun s => isValidName (VString (name s)) = true
                   /\ sanitizeName (VString (name s)) = name s
                   /\ isValidStudentId (VString (id s)) = true) students ->
  Forall (fun s => isValidName (VString (name s)) = true
                   /\ sanitizeName (VString (name s)) = name s
                   /\ isValidStudentId (VString (id s)) = true)
    (handle students r).1.
Proof.
  intros Hall. destruct r as [e n b | e sid n b | sid]; simpl.
  - unfold add_student.
    destruct (validateStudentData e n b) as [err|[r|nm bd]] eqn:Hval;
      [exact Hall|exact Hall|].
    apply validate_Next in Hval as (Hn & _ & _ & _ & ->).
    destruct (isValidName_inv _ Hn) as (n0 & -> & _).
    destruct (list_find _ students) as [[i x]|]; [exact Hall|].
    simpl. apply Forall_app. split; [exact Hall|].
    repeat constructor; simpl.
    + apply (sanitizeName_of_valid n0 Hn).
    + apply (sanitizeName_stable (VString n0) Hn).
    + apply generateStudentId_valid.
  - unfold update_student.
    destruct (validateStudentData e n b) as [err|[r|nm bd]] eqn:Hval;
      [exact Hall|exact Hall|].
    apply validate_Next in Hval as (Hn & _ & _ & _ & ->).
    destruct (isValidName_inv _ Hn) as (n0 & -> & _).
    destruct (negb (isValidStudentId (VString sid))); [exact Hall|].
    destruct (list_find (fun s => id s = sid) students)
      as [[i old]|] eqn:Hidx; [|exact Hall].
    apply list_find_Some in Hidx as (Hold & _ & _).
    destruct (list_find _ students) as [[j other]|]; [exact Hall|].
    simpl. apply Forall_insert; [exact Hall|]. simpl.
    split; [apply (sanitizeName_of_valid n0 Hn)|].
    split; [apply (sanitizeName_stable (VString n0) Hn)|].
    rewrite Forall_forall in Hall.
    apply (Hall old). apply list_elem_of_lookup. eauto.
  - unfold delete_student.
    destruct (negb (isValidStudentId (VString sid))); [exact Hall|].
    destruct (list_find _ students) as [[i old]|]; [|exact Hall].
    simpl. apply Forall_delete. exact Hall.
Qed.

Lemma reachable_wellformed (students : list student) :
  reachable students ->
  Forall (fun s => isValidName (VString (name s)) = true
                   /\ sanitizeName (VString (name s)) = name s
                   /\ isValidStudentId (VString (id s)) = true) students.
Proof.
  induction 1 as [|students r _ IH].
  - repeat constructor.
  - apply handle_wellformed. exact IH.
Qed.

(** In every collection the server can reach from the seed, whatever the
    requests and whatever identifiers the adds drew, each stored name is
    accepted by [isValidName] and is its own sanitized form, and each
    stored identifier is accepted by [isValidStudentId]. *)
Theorem stored_records_wellformed (students : list student) (s : student) :
  reachable students ->
  s ∈ students ->
  isValidName (VString (name s)) = true
  /\ sanitizeName (VString (name s)) = name s
  /\ isValidStudentId (VString (id s)) = true.
Proof.
  intros Hreach Hin.
  pose proof (reachable_wellformed students Hreach) as Hall.
  rewrite Forall_forall in Hall. exact (Hall s Hin).
Qed.


(** *** How the requests compose *)

Lemma NoDup_delete_gone {A : Type} (l : list A) (i : nat) (x : A) :
  NoDup l -> l !! i = Some x -> x ∉ delete i l.
Proof.
  intros Hnd Hi Hin.
  apply list_elem_of_lookup in Hin as [j Hj].
  destruct (decide (j < i)%nat) as [Hlt | Hge].
  - rewrite list_lookup_delete_lt in Hj by exact Hlt.
    pose proof (NoDup_lookup _ _ _ _ Hnd Hi Hj). lia.
  - rewrite list_lookup_delete_ge in Hj by lia.
    pose proof (NoDup_lookup _ _ _ _ Hnd Hi Hj). lia.
Qed.

(** In a collection whose identifiers are pairwise distinct, a successful
    delete leaves no record with that identifier: the edit page of the
    identifier answers not-found, and so does a second delete. *)
Theorem delete_then_not_found (students : list student)
    (studentId : jsstring) (message type : jsval) :
  ids_distinct students ->
  outcome_of (delete_student students studentId).2 = Some Success ->
  let students' := (delete_student students studentId).1 in
  (forall s, s ∈ students' -> id s <> studentId)
  /\ edit_page students' studentId message type
     = Answer (Redirect (js "/users") (js "Étudiant non trouvé.")
                 (js "error"))
  /\ delete_student students' studentId
     = (students', Redirect (js "/users") (js "Étudiant non trouvé.")
                     (js "error")).
Proof.
  intros Hids Hok students'.
  assert (Hshape : exists i old,
             students !! i = Some old /\ id old = studentId
             /\ isValidStudentId (VString studentId) = true
             /\ students' = delete i students).
  { subst students'. revert Hok. unfold delete_student. fixed_redirects.
    destruct (isValidStudentId (VString studentId)); [|discriminate].
    simpl negb. cbv iota.
    destruct (list_find (fun s => id s = studentId) students)
      as [[i old]|] eqn:Hidx; [|discriminate].
    intros _. apply list_find_Some in Hidx as (Hold & Hoid & _).
    exists i, old. auto. }
  destruct Hshape as (i & old & Hold & Hoid & Hvalid & Heq).
  clearbody students'. subst students'.
  assert (Hgone : forall s, s ∈ delete i students -> id s <> studentId).
  { intros s Hin Hs.
    apply (NoDup_delete_gone (id <$> students) i studentId Hids).
    - rewrite list_lookup_fmap, Hold. simpl. congruence.
    - rewrite <- list_fmap_delete. apply list_elem_of_fmap. eauto. }
  assert (Hfind : list_find (fun s => id s = studentId) (delete i students)
                  = None).
  { apply list_find_None, Forall_forall. exact Hgone. }
  split; [exact Hgone|].
  unfold edit_page, delete_student. fixed_redirects. rewrite Hvalid, Hfind.
  split; reflexivity.
Qed.

(** A successful add that drew a new identifier can be looked up at once:
    the edit page of that identifier shows the record just appended. *)
Theorem add_then_edit_page (e : env) (students : list student)
    (name0 birth0 : jsval) (message type : jsval) :
  id_is_new students (ReqAdd e name0 birth0) ->
  outcome_of (add_student e students name0 birth0).2 = Some Success ->
  exists r,
    (add_student e students name0 birth0).1 = students ++ [r]
    /\ id r = generateStudentId (env_idNow e) (env_random36 e)
    /\ edit_page (add_student e students name0 birth0).1 (id r) message type
       = RenderEdit (js "Gestion des Étudiants - Modification") r
           message type.
Proof.
  simpl. intros Hnew. unfold add_student.
  destruct (validateStudentData e name0 birth0) as [err|[r|nm bd]] eqn:Hval.
  { discriminate. }
  { simpl. rewrite (validate_Rejected_outcome _ _ _ _ Hval). discriminate. }
  fixed_redirects.
  destruct (list_find _ students) as [[i x]|]; [discriminate|].
  intros _. eexists. split; [reflexivity|]. split; [reflexivity|].
  simpl. unfold edit_page. rewrite generateStudentId_valid. simpl negb.
  cbv iota.
  set (newId := generateStudentId (env_idNow e) (env_random36 e)) in *.
  set (r := {| id := newId; name := nm; birth := bd;
               createdAt := Some (getCurrentISODate (env_stampNow e));
               updatedAt := None |}).
  assert (Hfind : list_find (fun s => id s = newId) (students ++ [r])
                  = Some (length students, r)).
  { apply list_find_Some. split; [|split].
    - rewrite lookup_app_r by lia. rewrite Nat.sub_diag. reflexivity.
    - reflexivity.
    - intros j y Hj Hlt Hy. apply Hnew.
      rewrite lookup_app_l in Hj by exact Hlt.
      apply list_elem_of_fmap. exists y. split; [congruence|].
      apply list_elem_of_lookup. eauto. }
  rewrite Hfind. reflexivity.
Qed.

(** After a successful update, the edit page of the identifier shows a
    record with that identifier, the sanitized new name and the new birth
    date. *)
Theorem update_then_edit_page (e : env) (students : list student)
    (studentId name0 birth0 : jsstring) (message type : jsval) :
  outcome_of
    (update_student e students studentId (VString name0) (VString birth0)).2
  = Some Success ->
  exists r,
    edit_page
      (update_student e students studentId (VString name0)
         (VString birth0)).1
      studentId message type
    = RenderEdit (js "Gestion des Étudiants - Modification") r message type
    /\ id r = studentId
    /\ name r = sanitizeName (VString name0)
    /\ birth r = birth0.
Proof.
  unfold update_student.
  destruct (validateStudentData e (VString name0) (VString birth0))
    as [err|[r|nm bd]] eqn:Hval.
  { discriminate. }
  { simpl. rewrite (validate_Rejected_outcome _ _ _ _ Hval). discriminate. }
  apply validate_Next in Hval as (_ & _ & [= <-] & _ & ->).
  fixed_redirects.
  destruct (isValidStudentId (VString studentId)) eqn:Hvalid;
    [|discriminate].
  simpl negb. cbv iota.
  destruct (list_find (fun s => id s = studentId) students)
    as [[i old]|] eqn:Hidx; [|discriminate].
  apply list_find_Some in Hidx as (Hold & Hoid & Hfirst).
  destruct (list_find _ students) as [[j other]|]; [discriminate|].
  intros _. simpl.
  exists {| id := id old;
            name := sanitizeName (VString name0);
            birth := birth0;
            createdAt := createdAt old;
            updatedAt := Some (getCurrentISODate (env_stampNow e)) |}.
  split; [|split; [|split; reflexivity]].
  - unfold edit_page. rewrite Hvalid. simpl negb. cbv iota.
    erewrite (proj2 (list_find_Some _ _ i _)); [reflexivity|].
    split; [|split].
    + apply list_lookup_insert_eq. eapply lookup_lt_Some, Hold.
    + exact Hoid.
    + intros j y Hj Hlt.
      rewrite list_lookup_insert_ne in Hj by lia. eauto.
  - exact Hoid.
Qed.

(** In every collection reached from the seed by requests whose adds
    drew new identifiers, a stored record can be updated under its own
    name: the update with its identifier, its name as stored and a valid
    birth date is not refused (the duplicate-name check skips the record
    itself) and overwrites that record only, keeping its identifier and
    creation stamp.  The answer is the success redirect, or the answer of
    the error-handling middleware when the stored name cannot be
    escaped. *)
Theorem update_keeping_name (e : env) (students : list student)
    (i : nat) (old : student) (birth0 : jsstring) :
  lowers_ascii toLowerCase ->
  reachable_with_new_ids students ->
  students !! i = Some old ->
  isValidBirthDate (env_today e) (env_minNow e) birth0 = true ->
  update_student e students (id old) (VString (name old)) (VString birth0)
  = (<[i := {| id := id old;
               name := name old;
               birth := birth0;
               createdAt := createdAt old;
               updatedAt := Some (getCurrentISODate (env_stampNow e)) |}]>
       students,
     if has_unpaired_surrogate (name old)
     then ErrorAnswer 500
            (js "Une erreur interne est survenue. Veuillez réessayer.")
     else Redirect (js "/users")
            (js "L'étudiant " ++ name old
             ++ js " a été modifié avec succès !")
            (js "success")).
Proof.
  intros Hlow Hreach Hold Hbirth.
  destruct (reachable_invariant students Hlow Hreach) as [Hids Hnames].
  pose proof (reachable_wellformed students
                (reachable_with_new_ids_reachable _ Hreach)) as Hall.
  rewrite Forall_forall in Hall.
  destruct (Hall old) as (Hvalid & Hstable & Hidok);
    [apply list_elem_of_lookup; eauto|].
  unfold update_student.
  rewrite (validate_pass e (name old) birth0 Hvalid Hbirth).
  rewrite Hstable, Hidok. simpl negb. cbv iota.
  assert (Hfind : list_find (fun s => id s = id old) students
                  = Some (i, old)).
  { apply list_find_Some. split; [exact Hold|]. split; [reflexivity|].
    intros j y Hj Hlt Hy.
    assert (i = j); [|lia].
    eapply NoDup_alt; [exact Hids| |].
    - rewrite list_lookup_fmap, Hold. reflexivity.
    - rewrite list_lookup_fmap, Hj. simpl. congruence. }
  rewrite Hfind. clear Hfind.
  destruct (list_find _ students) as [[j other]|] eqn:Hdup.
  - apply list_find_Some in Hdup as (Hother & [Hci Hne] & _).
    destruct Hne. f_equal.
    assert (j = i) as ->; [|congruence].
    eapply NoDup_alt; [exact Hnames| |].
    + rewrite list_lookup_fmap, Hother. reflexivity.
    + rewrite list_lookup_fmap, Hold. simpl. congruence.
  - quoting_redirects. reflexivity.
Qed.

(** No request rewrites an identifier or a creation stamp: every record
    of the collection after a request either was appended by this very
    add, with the generated identifier and the stamp just read, or has the
    identifier and the creation stamp of a record stored before. *)
Theorem ids_and_stamps_persist (students : list student) (r : request)
    (s' : student) :
  s' ∈ (handle students r).1 ->
  (exists s, s ∈ students /\ id s = id s' /\ createdAt s = createdAt s')
  \/ (exists e name0 birth0,
        r = ReqAdd e name0 birth0
        /\ id s' = generateStudentId (env_idNow e) (env_random36 e)
        /\ createdAt s' = Some (getCurrentISODate (env_stampNow e))).
Proof.
  assert (Hsame : s' ∈ students ->
            exists s, s ∈ students /\ id s = id s'
                      /\ createdAt s = createdAt s') by eauto.
  destruct r as [e n b | e sid n b | sid]; simpl.
  - unfold add_student.
    destruct (validateStudentData e n b) as [err|[r|nm bd]]; [auto|auto|].
    destruct (list_find _ students) as [[i x]|]; [auto|].
    simpl. intros Hin. apply elem_of_app in Hin as [Hin | Hin]; [auto|].
    apply list_elem_of_singleton in Hin. subst s'.
    right. exists e, n, b. auto.
  - unfold update_student.
    destruct (validateStudentData e n b) as [err|[r|nm bd]]; [auto|auto|].
    destruct (negb (isValidStudentId (VString sid))); [auto|].
    destruct (list_find (fun s => id s = sid) students)
      as [[i old]|] eqn:Hidx; [|auto].
    apply list_find_Some in Hidx as (Hold & _ & _).
    destruct (list_find _ students) as [[j other]|]; [auto|].
    simpl. intros Hin. left.
    apply list_elem_of_lookup in Hin as [k Hk].
    apply list_lookup_insert_Some in Hk
      as [(-> & <- & _) | (_ & Hk)].
    + exists old. split; [apply list_elem_of_lookup; eauto | auto].
    + apply Hsame. apply list_elem_of_lookup. eauto.
  - unfold delete_student.
    destruct (negb (isValidStudentId (VString sid))); [auto|].
    destruct (list_find _ students) as [[i old]|]; [|auto].
    simpl. intros Hin. left. apply Hsame.
    eapply list_elem_of_delete_inv, Hin.
Qed.

End Platform.


Lemma ascii_toLowerCase_lowers_ascii : lowers_ascii ascii_toLowerCase.
Proof. intros s _. reflexivity. Qed.

(* ===================================================================== *)
(** ** Concrete runs *)
(* ===================================================================== *)

Local Abbreviation add0 :=
  (add_student tz_utc no_other_format ascii_toLowerCase).
Local Abbreviation update0 :=
  (update_student tz_utc no_other_format ascii_toLowerCase).
Local Abbreviation handle0 :=
  (handle tz_utc no_other_format ascii_toLowerCase).

(** The seed followed by one add of a sixth student. *)
Lemma names_unique_invariant_witness :
  ~ same_name_ci ascii_toLowerCase (js "Alice") (js "Zoe").
Proof.
  apply (names_unique_invariant tz_utc no_other_format ascii_toLowerCase
           (handle0 students0
              (ReqAdd env_2024 (VString (js "Zoe"))
                 (VString (js "2001-04-09")))).1
           2%nat 5%nat alice
           {| id := js "lqu5m2o0k3x9q2"; name := js "Zoe";
              birth := js "2001-04-09";
              createdAt := Some (js "2024-01-01T00:00:00.000Z");
              updatedAt := None |}).
  - exact ascii_toLowerCase_lowers_ascii.
  - apply new_ids_request; [apply new_ids_seed|].
    apply (bool_decide_unpack _). vm_compute. exact I.
  - reflexivity.
  - reflexivity.
  - discriminate.
Defined.

(** C1, as stated, fails: nothing makes the generated identifier new.
    Two adds that read the same millisecond and the same random digits
    store two records with one identifier.  An update of that identifier
    then rewrites the first of them, and its duplicate-name check skips
    the second, which bears the identifier too: giving the first record
    the name of the second is accepted, and the collection holds the same
    name twice. *)
Lemma names_unique_fails_on_repeated_id :
  let add1 :=
    ReqAdd env_2024 (VString (js "Yan")) (VString (js "2001-04-09")) in
  let add2 :=
    ReqAdd env_2024 (VString (js "Zoe")) (VString (js "1999-12-31")) in
  let update :=
    ReqUpdate env_2024_later (js "lqu5m2o0k3x9q2") (VString (js "Zoe"))
      (VString (js "2001-04-09")) in
  let students1 := (handle0 students0 add1).1 in
  let students2 := (handle0 students1 add2).1 in
  let students3 := (handle0 students2 update).1 in
  reachable tz_utc no_other_format ascii_toLowerCase students3
  /\ lowers_ascii ascii_toLowerCase
  /\ outcome_of (handle0 students0 add1).2 = Some Success
  /\ outcome_of (handle0 students1 add2).2 = Some Success
  /\ outcome_of (handle0 students2 update).2 = Some Success
  /\ (exists si sj,
        students3 !! 5%nat = Some si /\ students3 !! 6%nat = Some sj
        /\ name si = js "Zoe" /\ name sj = js "Zoe"
        /\ same_name_ci ascii_toLowerCase (name si) (name sj)).
Proof.
  intros add1 add2 update students1 students2 students3.
  split.
  { apply (reachable_request tz_utc no_other_format ascii_toLowerCase
             students2 update).
    apply (reachable_request tz_utc no_other_format ascii_toLowerCase
             students1 add2).
    apply (reachable_request tz_utc no_other_format ascii_toLowerCase
             students0 add1).
    apply reachable_seed. }
  split; [exact ascii_toLowerCase_lowers_ascii|].
  split; [vm_compute; reflexivity|].
  split; [vm_compute; reflexivity|].
  split; [vm_compute; reflexivity|].
  eexists _, _. vm_compute. repeat split; reflexivity.
Qed.

(** Existing Alice, new alice. *)
Lemma add_student_duplicate_witness :
  (add0 env_2024 students0 (VString (js "alice"))
     (VString (js "1995-03-10"))).1 = students0
  /\ outcome_of (add0 env_2024 students0 (VString (js "alice"))
                   (VString (js "1995-03-10"))).2
     = Some DuplicateName.
Proof.
  apply (add_student_duplicate tz_utc no_other_format ascii_toLowerCase
           env_2024 students0 (js "alice") (js "1995-03-10") alice).
  - reflexivity.
  - reflexivity.
  - apply list_elem_of_lookup_2 with 2%nat. reflexivity.
  - reflexivity.
Defined.

Lemma add_student_appends_witness :
  add0 env_2024 students0 (VString (js "  Zoe   Martin "))
    (VString (js "2001-04-09"))
  = (students0 ++
       [ {| id := js "lqu5m2o0k3x9q2"; name := js "Zoe Martin";
            birth := js "2001-04-09";
            createdAt := Some (js "2024-01-01T00:00:00.000Z");
            updatedAt := None |} ],
     Redirect (js "/users")
       (js "L'étudiant Zoe Martin a été ajouté avec succès !")
       (js "success")).
Proof.
  rewrite (add_student_appends tz_utc no_other_format ascii_toLowerCase
             env_2024 students0 (js "  Zoe   Martin ") (js "2001-04-09")
             eq_refl eq_refl).
  - vm_compute. reflexivity.
  - apply Forall_forall. apply (bool_decide_unpack _). vm_compute. exact I.
Defined.

(** A valid name that ends in a leading surrogate: the record is
    appended, then the message of the redirect cannot be escaped and the
    error-handling middleware answers. *)
Example add_student_unpaired_surrogate :
  isValidName (VString (js "ab" ++ [55357%N])) = true
  /\ add0 env_2024 students0 (VString (js "ab" ++ [55357%N]))
       (VString (js "2001-04-09"))
     = (students0 ++
          [ {| id := js "lqu5m2o0k3x9q2"; name := js "ab" ++ [55357%N];
               birth := js "2001-04-09";
               createdAt := Some (js "2024-01-01T00:00:00.000Z");
               updatedAt := None |} ],
        ErrorAnswer 500
          (js "Une erreur interne est survenue. Veuillez réessayer.")).
Proof. split; vm_compute; reflexivity. Qed.

(** C3, as stated, fails: the answer of a successful add is a redirect
    that quotes the name only.  Two adds that store different records
    (other birth date, identifier and stamp) get the very same answer, so
    the answer does not hand back the new record. *)
Lemma add_student_answer_is_not_the_record :
  let first :=
    add0 env_2024 students0 (VString (js "Zoe"))
      (VString (js "2001-04-09")) in
  let second :=
    add0 env_2024_later students0 (VString (js "Zoe"))
      (VString (js "1999-12-31")) in
  outcome_of first.2 = Some Success
  /\ outcome_of second.2 = Some Success
  /\ first.2 = second.2
  /\ first.1 <> second.1.
Proof.
  vm_compute. repeat split; discriminate.
Qed.


(** Deleting the third seeded record, and an identifier nobody bears. *)
Lemma delete_student_removes_one_witness :
  (delete_student students0 (js "9")).1 = students0
  /\ exists i old,
       students0 !! i = Some old
       /\ (delete_student students0 (js "3")).1
          = take i students0 ++ drop (S i) students0.
Proof.
  split.
  - apply (delete_student_removes_one students0 (js "9")).
    right.
    refine (proj1 (Forall_forall (fun s => id s <> js "9") students0) _).
    apply (bool_decide_unpack _). vm_compute. exact I.
  - destruct (delete_student_removes_one students0 (js "3")) as [_ Hok].
    destruct Hok as (i & old & Hold & _ & _ & Hres & _).
    + intros [Hbad | Hnone].
      * discriminate.
      * apply (Hnone alice); [|reflexivity].
        apply list_elem_of_lookup_2 with 2%nat. reflexivity.
    + exists i, old. split; [exact Hold | exact Hres].
Defined.

(** The four steps on the example of the specification. *)
Lemma sanitizeName_pipeline_witness :
  js "A Bscript" = sanitizeName (VString (js " A  B<script> ")).
Proof.
  apply (proj2 (sanitizeName_pipeline (VString (js " A  B<script> ")))
           (js "A  B<script>") (js "A B<script>") (js "A Bscript")).
  - exists [SPACE], [SPACE]. repeat split; repeat constructor.
  - apply rc_char; [reflexivity|].
    apply (rc_run [SPACE; SPACE]); [discriminate|repeat constructor|reflexivity|].
    repeat (apply rc_char; [reflexivity|]). apply rc_nil.
  - repeat first [ apply dr_nil
                 | apply dr_keep; [reflexivity|]
                 | apply dr_drop; [reflexivity|] ].
  - split; [exists []; reflexivity | reflexivity].
Defined.

Lemma valid_name_sanitized_witness :
  isValidName (VString (sanitizeName (VString (js "  Zoe   Martin ")))) = true.
Proof.
  exact (proj1 (proj2 (proj2
           (valid_name_sanitized tz_utc no_other_format ascii_toLowerCase
              (VString (js "  Zoe   Martin ")) eq_refl)))).
Defined.

(** C8, as stated, fails: only the five characters go, the letters between
    the angle brackets stay. *)
Lemma sanitizeName_example_is_not_A_B :
  sanitizeName (VString (js " A  B<script> ")) <> js "A B".
Proof. vm_compute. discriminate. Qed.

(** Removal comes after collapsing: what stood on both sides of a removed
    character stays, here two spaces in a row. *)
Example sanitizeName_keeps_inner_gap :
  sanitizeName (VString (js "a < b")) = js "a  b".
Proof. reflexivity. Qed.

(** C8 (amended).  On the string made of a space, [A], two spaces,
    [B<script>] and a space, [sanitizeName] answers [A Bscript]. *)
Theorem sanitizeName_example :
  sanitizeName (VString (js " A  B<script> ")) = js "A Bscript".
Proof. reflexivity. Qed.

(** C6, failing input.  Read on 1 January 2024 at midnight UTC,
    [isValidBirthDate] accepts the string [2023-02-30]: the pattern
    matches, the engine carries the thirtieth day of February over to
    2 March 2023, which is neither in the future nor 150 years old.  The
    string names no day of the calendar. *)
Theorem isValidBirthDate_accepts_30_february
    (other : jsstring -> option Z) :
  isValidBirthDate tz_utc other 1704067200000 1704067200000
    (js "2023-02-30") = true
  /\ Date_parse other (js "2023-02-30")
     = Date_parse other (js "2023-03-02")
  /\ ymd_fields (js "2023-02-30") = Some (2023, 2, 30)
  /\ is_calendar_date 2023 2 30 = false.
Proof. repeat split; reflexivity. Qed.

(** C9, failing inputs.  The year is printed without leading zeros, so a
    year below 1000 comes out with fewer than four digits; and the day,
    month and year are read in local time although the string was parsed
    as midnight UTC, so a time zone behind UTC shows the day before. *)
Theorem formatDateToFrench_failing_inputs (other : jsstring -> option Z) :
  formatDateToFrench tz_utc other (js "0999-05-05") = js "05/05/999"
  /\ formatDateToFrench tz_minus5h other (js "1990-09-14") = js "13/09/1990"
  /\ is_calendar_date 999 5 5 = true
  /\ is_calendar_date 1990 9 14 = true.
Proof. repeat split; reflexivity. Qed.

(** The list page on the seeded records, in UTC and two hours ahead. *)
Example formatStudents_seed :
  (formatStudents tz_utc no_other_format students0).*2
  = [js "14/05/2019"; js "05/12/2000"; js "14/09/1990"; js "02/10/2001";
     js "21/08/1980"]
  /\ (formatStudents tz_plus2h no_other_format students0).*2
     = (formatStudents tz_utc no_other_format students0).*2.
Proof. split; reflexivity. Qed.

(* ===================================================================== *)
(** ** Concrete runs of the further properties *)
(* ===================================================================== *)

Lemma sanitizeName_idempotent_on_valid_witness :
  sanitizeName (VString (sanitizeName (VString (js "  Zoe   Martin "))))
  = sanitizeName (VString (js "  Zoe   Martin ")).
Proof.
  exact (sanitizeName_idempotent_on_valid
           (VString (js "  Zoe   Martin ")) eq_refl).
Defined.

(** The three ways in which the middleware ends: a number for a name, an
    array holding one date string for a birth date, a name that is too
    short together with a missing birth date. *)
Example validateStudentData_runs :
  validateStudentData tz_utc no_other_format env_2024
    (VNumber 123) (VString (js "2001-04-09"))
  = inl TypeError
  /\ validateStudentData tz_utc no_other_format env_2024
       (VString (js " Zoe ")) (VObject (Some (js "2001-04-09")))
     = inr (Next (js "Zoe") (js "2001-04-09"))
  /\ validateStudentData tz_utc no_other_format env_2024
       (VString (js "Z")) VUndefined
     = inr (Rejected
              (JsonErrors 400
                 [js "Le nom doit contenir entre 2 et 50 caractères";
                  js "La date de naissance est requise"])).
Proof. repeat split; vm_compute; reflexivity. Qed.

(** An add refused for a duplicate name, a delete of an identifier nobody
    bears. *)
Lemma refusal_keeps_store_witness :
  (handle0 students0
     (ReqAdd env_2024 (VString (js "alice")) (VString (js "1995-03-10")))).1
  = students0
  /\ (handle0 students0 (ReqDelete (js "9"))).1 = students0.
Proof.
  split.
  - apply (refusal_keeps_store tz_utc no_other_format ascii_toLowerCase
             students0
             (ReqAdd env_2024 (VString (js "alice"))
                (VString (js "1995-03-10")))).
    + vm_compute. discriminate.
    + intros err. vm_compute. discriminate.
  - apply (refusal_keeps_store tz_utc no_other_format ascii_toLowerCase
             students0 (ReqDelete (js "9"))).
    + vm_compute. discriminate.
    + intros err. vm_compute. discriminate.
Defined.

Lemma success_changes_size_witness :
  length (handle0 students0
            (ReqAdd env_2024 (VString (js "Zoe"))
               (VString (js "2001-04-09")))).1 = 6%nat.
Proof.
  exact (success_changes_size tz_utc no_other_format ascii_toLowerCase
           students0
           (ReqAdd env_2024 (VString (js "Zoe"))
              (VString (js "2001-04-09")))
           eq_refl).
Defined.

Lemma ids_unique_invariant_witness : js "3" <> js "lqu5m2o0k3x9q2".
Proof.
  apply (ids_unique_invariant tz_utc no_other_format ascii_toLowerCase
           (handle0 students0
              (ReqAdd env_2024 (VString (js "Zoe"))
                 (VString (js "2001-04-09")))).1
           2%nat 5%nat alice
           {| id := js "lqu5m2o0k3x9q2"; name := js "Zoe";
              birth := js "2001-04-09";
              createdAt := Some (js "2024-01-01T00:00:00.000Z");
              updatedAt := None |}).
  - apply new_ids_request; [apply new_ids_seed|].
    apply (bool_decide_unpack _). vm_compute. exact I.
  - reflexivity.
  - reflexivity.
  - discriminate.
Defined.

(** The record written by an add, then renamed by an update. *)
Lemma stored_records_wellformed_witness :
  isValidName (VString (js "Zoe Martin-Dupont")) = true
  /\ sanitizeName (VString (js "Zoe Martin-Dupont"))
     = js "Zoe Martin-Dupont"
  /\ isValidStudentId (VString (js "lqu5m2o0k3x9q2")) = true.
Proof.
  apply (stored_records_wellformed tz_utc no_other_format ascii_toLowerCase
           (handle0
              (handle0 students0
                 (ReqAdd env_2024 (VString (js "  Zoe   Martin "))
                    (VString (js "2001-04-09")))).1
              (ReqUpdate env_2024_later (js "lqu5m2o0k3x9q2")
                 (VString (js " Zoe  Martin-Dupont"))
                 (VString (js "2001-04-09")))).1
           {| id := js "lqu5m2o0k3x9q2"; name := js "Zoe Martin-Dupont";
              birth := js "2001-04-09";
              createdAt := Some (js "2024-01-01T00:00:00.000Z");
              updatedAt := Some (js "2024-01-01T00:01:00.000Z") |}).
  - apply reachable_request, reachable_request, reachable_seed.
  - apply list_elem_of_lookup_2 with 5%nat. reflexivity.
Defined.

Lemma delete_then_not_found_witness :
  edit_page (delete_student students0 (js "3")).1 (js "3")
    VUndefined VUndefined
  = Answer (Redirect (js "/users") (js "Étudiant non trouvé.") (js "error")).
Proof.
  apply (delete_then_not_found students0 (js "3") VUndefined VUndefined).
  - apply (bool_decide_unpack _). vm_compute. exact I.
  - reflexivity.
Defined.

Lemma add_then_edit_page_witness :
  exists r,
    (add0 env_2024 students0 (VString (js "Zoe"))
       (VString (js "2001-04-09"))).1
    = students0 ++ [r]
    /\ id r = js "lqu5m2o0k3x9q2"
    /\ edit_page (add0 env_2024 students0 (VString (js "Zoe"))
                    (VString (js "2001-04-09"))).1
         (id r) VUndefined VUndefined
       = RenderEdit (js "Gestion des Étudiants - Modification") r
           VUndefined VUndefined.
Proof.
  destruct (add_then_edit_page tz_utc no_other_format ascii_toLowerCase
              env_2024 students0 (VString (js "Zoe"))
              (VString (js "2001-04-09"))
              VUndefined VUndefined) as (r & Hst & Hid & Hpage).
  - apply (bool_decide_unpack _). vm_compute. exact I.
  - reflexivity.
  - exists r. split; [exact Hst|]. split; [|exact Hpage].
    rewrite Hid. vm_compute. reflexivity.
Defined.

Lemma update_then_edit_page_witness :
  exists r,
    edit_page (update0 env_2024 students0 (js "3")
                 (VString (js " Alicia "))
                 (VString (js "1990-09-15"))).1
      (js "3") VUndefined VUndefined
    = RenderEdit (js "Gestion des Étudiants - Modification") r
        VUndefined VUndefined
    /\ id r = js "3" /\ name r = js "Alicia" /\ birth r = js "1990-09-15".
Proof.
  destruct (update_then_edit_page tz_utc no_other_format ascii_toLowerCase
              env_2024 students0 (js "3") (js " Alicia ") (js "1990-09-15")
              VUndefined VUndefined eq_refl)
    as (r & Hpage & Hid & Hname & Hbirth).
  exists r. auto.
Defined.

(** The record written by an add is updated under its own name. *)
Lemma update_keeping_name_witness :
  let students :=
    (handle0 students0
       (ReqAdd env_2024 (VString (js "  Zoe   Martin "))
          (VString (js "2001-04-09")))).1 in
  update0 env_2024_later students (js "lqu5m2o0k3x9q2")
    (VString (js "Zoe Martin")) (VString (js "2001-04-10"))
  = (<[5%nat := {| id := js "lqu5m2o0k3x9q2"; name := js "Zoe Martin";
                   birth := js "2001-04-10";
                   createdAt := Some (js "2024-01-01T00:00:00.000Z");
                   updatedAt := Some (js "2024-01-01T00:01:00.000Z") |}]>
       students,
     Redirect (js "/users")
       (js "L'étudiant Zoe Martin a été modifié avec succès !")
       (js "success")).
Proof.
  intros students.
  pose proof (update_keeping_name tz_utc no_other_format ascii_toLowerCase
                env_2024_later students 5%nat
                {| id := js "lqu5m2o0k3x9q2"; name := js "Zoe Martin";
                   birth := js "2001-04-09";
                   createdAt := Some (js "2024-01-01T00:00:00.000Z");
                   updatedAt := None |}
                (js "2001-04-10") ascii_toLowerCase_lowers_ascii) as H.
  cbn [id name createdAt] in H. rewrite H.
  - vm_compute. reflexivity.
  - apply new_ids_request; [apply new_ids_seed|].
    apply (bool_decide_unpack _). vm_compute. exact I.
  - reflexivity.
  - reflexivity.
Defined.

(** The thirtieth of February, read on 1 January 2024. *)
Lemma isValidBirthDate_in_range_iff_witness :
  isValidBirthDate tz_utc no_other_format 1704067200000 1704067200000
    (js "2023-02-30") = true.
Proof.
  apply (isValidBirthDate_in_range_iff tz_utc no_other_format
           1704067200000 1704067200000 (js "2023-02-30") 2023 2 30).
  - reflexivity.
  - lia.
  - lia.
  - split.
    + vm_compute. discriminate.
    + intros minDate Hmin. vm_compute in Hmin. injection Hmin as <-.
      vm_compute. discriminate.
Defined.

Lemma calculateAge_not_negative_witness :
  0 <= calculateAge tz_utc no_other_format 1704067200000 (js "1990-09-14").
Proof.
  apply (calculateAge_not_negative tz_utc no_other_format 1704067200000
           (js "1990-09-14") 653270400000).
  - reflexivity.
  - vm_compute. discriminate.
Defined.

Lemma areDatesEqual_same_display_witness :
  formatDateToFrench tz_utc no_other_format (js "2023-02-30")
  = formatDateToFrench tz_utc no_other_format (js "2023-03-02")
  /\ calculateAge tz_utc no_other_format 1704067200000 (js "2023-02-30")
     = calculateAge tz_utc no_other_format 1704067200000 (js "2023-03-02").
Proof.
  exact (areDatesEqual_same_display tz_utc no_other_format
           (js "2023-02-30") (js "2023-03-02") 1704067200000 eq_refl).
Defined.

Lemma accepted_birth_date_age_witness :
  0 <= calculateAge tz_utc no_other_format 1704067200000 (js "1990-09-14")
  <= 150.
Proof.
  apply (accepted_birth_date_age tz_utc no_other_format 0 1704067200000
           (js "1990-09-14")).
  - intros t b. reflexivity.
  - lia.
  - reflexivity.
Defined.

Lemma getCurrentISODate_date_part_witness :
  length (getCurrentISODate 1704067200123) = 24%nat
  /\ dateRegex_test (take 10 (getCurrentISODate 1704067200123)) = true
  /\ Date_parse no_other_format (take 10 (getCurrentISODate 1704067200123))
     = Some (Day 1704067200123 * msPerDay).
Proof.
  apply (getCurrentISODate_date_part no_other_format 1704067200123). lia.
Defined.

(** The example of the specification, two hours ahead of UTC. *)
Lemma formatDateToFrench_calendar_witness :
  exists y1 y2 y3 y4 m1 m2 d1 d2,
    js "1990-09-14" = [y1; y2; y3; y4; MINUS; m1; m2; MINUS; d1; d2]
    /\ formatDateToFrench tz_plus2h no_other_format (js "1990-09-14")
       = [d1; d2; 47%N; m1; m2; 47%N; y1; y2; y3; y4].
Proof.
  apply (formatDateToFrench_calendar tz_plus2h no_other_format
           (js "1990-09-14") 1990 9 14).
  - reflexivity.
  - reflexivity.
  - lia.
  - unfold tz_plus2h, msPerDay. lia.
Defined.

(** A delete on the seed: the record that stays kept its identifier. *)
Lemma ids_and_stamps_persist_witness :
  (exists s, s ∈ students0 /\ id s = id alice
             /\ createdAt s = createdAt alice)
  \/ (exists e name0 birth0,
        ReqDelete (js "1") = ReqAdd e name0 birth0
        /\ id alice = generateStudentId (env_idNow e) (env_random36 e)
        /\ createdAt alice = Some (getCurrentISODate (env_stampNow e))).
Proof.
  apply (ids_and_stamps_persist tz_utc no_other_format ascii_toLowerCase
           students0 (ReqDelete (js "1")) alice).
  apply list_elem_of_lookup_2 with 1%nat. reflexivity.
Defined.
